(** * SFEX REST client ([python/sfex_api.py]): request signing and dispatch

    A shallow embedding of the [Client] class of [sfex_api.py] (Python 3
    semantics) together with the properties its specification states.

    - Python [str] is a sequence of code points, [bytes] a sequence of
      octets, [int] is [Z].
    - A [dict] keeps insertion order: it is an association list with
      unique keys, [d[k] = v] overwrites in place or appends.
    - Dicts are mutable and shared: they live in a heap and are passed
      by reference.
    - Exceptions are an error monad layered over the state of the world
      (heap, clock, network). *)

From Stdlib Require Import ZArith NArith QArith Qround Qabs Lqa Lia List.
From Stdlib.Strings Require Import Ascii String Byte.
From stdpp Require Import prelude.

Local Open Scope Z_scope.

(** ** Text and octets *)

Abbreviation str := (list N).
Abbreviation bytes := (list byte).

Definition lit (s : string) : str :=
  (fun a => N_of_ascii a) <$> list_ascii_of_string s.

Definition byte_of_Z (z : Z) : byte :=
  default x00 (Byte.of_N (Z.to_N (z mod 256))).

Definition Z_of_byte (b : byte) : Z := Z.of_N (Byte.to_N b).

Definition blit (s : string) : bytes :=
  (fun a => byte_of_Z (Z.of_N (N_of_ascii a))) <$> list_ascii_of_string s.

(** ** Exceptions *)

Inductive exn :=
| UnicodeEncodeError
| IndexError
| KeyError
| TypeError
| ValueError
| AttributeError
| ConnectionError.

Inductive res (A : Type) :=
| Ok (a : A)
| Raise (e : exn).
Arguments Ok {A} a.
Arguments Raise {A} e.

Definition res_bind {A B} (r : res A) (k : A -> res B) : res B :=
  match r with
  | Ok a => k a
  | Raise e => Raise e
  end.

Definition res_map {A B} (f : A -> B) (r : res A) : res B :=
  res_bind r (fun a => Ok (f a)).

(** ** [str.encode("utf-8")] *)

Definition utf8_char (c : N) : res bytes :=
  let z := Z.of_N c in
  if z <? 0x80 then Ok [byte_of_Z z]
  else if z <? 0x800 then
    Ok [byte_of_Z (Z.lor 0xC0 (Z.shiftr z 6));
        byte_of_Z (Z.lor 0x80 (Z.land z 0x3F))]
  else if z <? 0x10000 then
    if (0xD800 <=? z) && (z <? 0xE000) then Raise UnicodeEncodeError
    else
      Ok [byte_of_Z (Z.lor 0xE0 (Z.shiftr z 12));
          byte_of_Z (Z.lor 0x80 (Z.land (Z.shiftr z 6) 0x3F));
          byte_of_Z (Z.lor 0x80 (Z.land z 0x3F))]
  else if z <? 0x110000 then
    Ok [byte_of_Z (Z.lor 0xF0 (Z.shiftr z 18));
        byte_of_Z (Z.lor 0x80 (Z.land (Z.shiftr z 12) 0x3F));
        byte_of_Z (Z.lor 0x80 (Z.land (Z.shiftr z 6) 0x3F));
        byte_of_Z (Z.lor 0x80 (Z.land z 0x3F))]
  else Raise UnicodeEncodeError.

Fixpoint encode_utf8 (s : str) : res bytes :=
  match s with
  | [] => Ok []
  | c :: s' =>
      res_bind (utf8_char c) (fun b =>
      res_bind (encode_utf8 s') (fun bs => Ok (b ++ bs)))
  end.

(** ** [hashlib.sha256] (FIPS 180-4) on 32-bit words held in [Z] *)

Module SHA256.

Definition wrap (x : Z) : Z := x mod 2 ^ 32.
Definition add32 (x y : Z) : Z := wrap (x + y).
Definition rotr (n x : Z) : Z :=
  Z.lor (Z.shiftr x n) (wrap (Z.shiftl x (32 - n))).
Definition shr (n x : Z) : Z := Z.shiftr x n.
Definition not32 (x : Z) : Z := Z.lxor x 0xffffffff.

Definition Ch (x y z : Z) : Z :=
  Z.lxor (Z.land x y) (Z.land (not32 x) z).
Definition Maj (x y z : Z) : Z :=
  Z.lxor (Z.lxor (Z.land x y) (Z.land x z)) (Z.land y z).
Definition Sigma0 (x : Z) : Z :=
  Z.lxor (Z.lxor (rotr 2 x) (rotr 13 x)) (rotr 22 x).
Definition Sigma1 (x : Z) : Z :=
  Z.lxor (Z.lxor (rotr 6 x) (rotr 11 x)) (rotr 25 x).
Definition sigma0 (x : Z) : Z :=
  Z.lxor (Z.lxor (rotr 7 x) (rotr 18 x)) (shr 3 x).
Definition sigma1 (x : Z) : Z :=
  Z.lxor (Z.lxor (rotr 17 x) (rotr 19 x)) (shr 10 x).

(** The constants are given by their definition in FIPS 180-4: the
    first 32 bits of the fractional parts of the cube roots of the first
    64 primes, resp. of the square roots of the first 8 primes. *)
Definition is_prime (n : Z) : bool :=
  forallb (fun d => negb (n mod d =? 0)) (Z.of_nat <$> seq 2 (Z.to_nat n - 2)).

Definition first_primes (k : nat) : list Z :=
  take k (List.filter is_prime (Z.of_nat <$> seq 2 310)).

Definition cube_root (n : Z) : Z :=
  fold_left (fun r b => if (r + 2 ^ b) ^ 3 <=? n then r + 2 ^ b else r)
            (Z.of_nat <$> rev (seq 0 40)) 0.

Definition K : list Z :=
  Eval vm_compute in
    (fun p => wrap (cube_root (p * 2 ^ 96))) <$> first_primes 64.

Definition H0 : list Z :=
  Eval vm_compute in
    (fun p => wrap (Z.sqrt (p * 2 ^ 64))) <$> first_primes 8.

(** Big-endian packing of octets into words and back. *)
Definition be_bytes (n : nat) (x : Z) : bytes :=
  (fun i => byte_of_Z (Z.shiftr x (8 * Z.of_nat i))) <$> rev (seq 0 n).

Definition be_word (bs : bytes) : Z :=
  fold_left (fun acc b => Z.lor (Z.shiftl acc 8) (Z_of_byte b)) bs 0.

Fixpoint chunks {A} (fuel n : nat) (l : list A) : list (list A) :=
  match fuel, l with
  | O, _ => []
  | _, [] => []
  | S fuel', _ => take n l :: chunks fuel' n (drop n l)
  end.

Definition pad (msg : bytes) : bytes :=
  let len := Z.of_nat (length msg) in
  msg ++ [x80] ++ replicate (Z.to_nat ((55 - len) mod 64)) x00
      ++ be_bytes 8 (8 * len).

(** One round: the window holds W[t], ..., W[t+15]. *)
Definition round (st : list Z * list Z) (k : Z) : list Z * list Z :=
  let '(v, win) := st in
  let g i := nth i v 0 in
  let w i := nth i win 0 in
  let t1 := add32 (add32 (add32 (add32 (g 7%nat) (Sigma1 (g 4%nat)))
                                  (Ch (g 4%nat) (g 5%nat) (g 6%nat))) k) (w 0%nat) in
  let t2 := add32 (Sigma0 (g 0%nat)) (Maj (g 0%nat) (g 1%nat) (g 2%nat)) in
  let wn := add32 (add32 (add32 (sigma1 (w 14%nat)) (w 9%nat))
                         (sigma0 (w 1%nat))) (w 0%nat) in
  ([add32 t1 t2; g 0%nat; g 1%nat; g 2%nat; add32 (g 3%nat) t1;
    g 4%nat; g 5%nat; g 6%nat],
   tail win ++ [wn]).

Definition compress (h : list Z) (block : bytes) : list Z :=
  let win := be_word <$> chunks 16 4 block in
  let '(v, _) := fold_left round K (h, win) in
  zip_with add32 h v.

Definition digest (msg : bytes) : bytes :=
  let p := pad msg in
  let h := fold_left compress (chunks (length p) 64 p) H0 in
  h ≫= be_bytes 4.

End SHA256.

(** ** [hmac.new(key, msg, hashlib.sha256).digest()] (RFC 2104) *)

Definition xor_byte (c : Z) (b : byte) : byte :=
  byte_of_Z (Z.lxor (Z_of_byte b) c).

Definition hmac_sha256 (key msg : bytes) : bytes :=
  let k0 := if (64 <? length key)%nat then SHA256.digest key else key in
  let k := k0 ++ replicate (64 - length k0) x00 in
  SHA256.digest ((xor_byte 0x5c <$> k)
                 ++ SHA256.digest ((xor_byte 0x36 <$> k) ++ msg)).

(** ** [base64.b64encode] (RFC 4648, standard alphabet, padded) *)

Definition b64_alphabet : bytes :=
  blit "ABCDEFGHIJKLMNOPQRSTUVWXYZabcdefghijklmnopqrstuvwxyz0123456789+/".

Definition b64_digit (x : Z) : byte :=
  nth (Z.to_nat (Z.land x 63)) b64_alphabet x00.

Fixpoint b64encode (bs : bytes) : bytes :=
  match bs with
  | [] => []
  | [a] =>
      let n := Z.shiftl (Z_of_byte a) 16 in
      [b64_digit (Z.shiftr n 18); b64_digit (Z.shiftr n 12);
       byte_of_Z 61; byte_of_Z 61]
  | [a; b] =>
      let n := Z.lor (Z.shiftl (Z_of_byte a) 16) (Z.shiftl (Z_of_byte b) 8) in
      [b64_digit (Z.shiftr n 18); b64_digit (Z.shiftr n 12);
       b64_digit (Z.shiftr n 6); byte_of_Z 61]
  | a :: b :: c :: rest =>
      let n := Z.lor (Z.lor (Z.shiftl (Z_of_byte a) 16)
                            (Z.shiftl (Z_of_byte b) 8)) (Z_of_byte c) in
      [b64_digit (Z.shiftr n 18); b64_digit (Z.shiftr n 12);
       b64_digit (Z.shiftr n 6); b64_digit n] ++ b64encode rest
  end.

(** ** Python values

    [atom]s are the immutable scalars that occur as request fields and
    header values; a [value] is an atom or a reference to a dict on the
    heap.  Floats are outside the model, and so are the integers
    beyond the interpreter's limit on the conversion of an [int] to
    text (4300 decimal digits by default), for which [str] raises
    [ValueError]: the statements about whole calls exclude them. *)

Abbreviation loc := nat.

Inductive atom :=
| ANone
| ABool (b : bool)
| AInt (z : Z)
| AStr (s : str)
| ABytes (b : bytes).

Inductive value :=
| VAtom (a : atom)
| VDict (l : loc).

#[global] Instance byte_eq_dec : EqDecision byte := Byte.byte_eq_dec.
#[global] Instance atom_eq_dec : EqDecision atom.
Proof. solve_decision. Defined.
#[global] Instance value_eq_dec : EqDecision value.
Proof. solve_decision. Defined.

(** *** [str(int)] *)

Definition digit_char (d : Z) : N := Z.to_N (48 + d).

Fixpoint dec_digits (fuel : nat) (n : Z) (acc : str) : str :=
  match fuel with
  | O => acc
  | S fuel' =>
      let acc' := digit_char (n mod 10) :: acc in
      if n <? 10 then acc' else dec_digits fuel' (n / 10) acc'
  end.

Definition str_of_int (z : Z) : str :=
  if z <? 0 then 45%N :: dec_digits (S (Z.to_nat (Z.log2 (- z)))) (- z) []
  else dec_digits (S (Z.to_nat (Z.log2 z))) z [].

(** *** [repr(bytes)] *)

Definition hex_char (x : Z) : N :=
  nth (Z.to_nat (Z.land x 15)) (lit "0123456789abcdef") 0%N.

Definition bytes_repr_char (quote : Z) (b : byte) : str :=
  let z := Z_of_byte b in
  if (z =? quote) || (z =? 92) then [92%N; Z.to_N z]
  else if z =? 9 then lit "\t"
  else if z =? 10 then lit "\n"
  else if z =? 13 then lit "\r"
  else if (z <? 32) || (127 <=? z) then
    lit "\x" ++ [hex_char (Z.shiftr z 4); hex_char z]
  else [Z.to_N z].

Definition bytes_repr (bs : bytes) : str :=
  let has c := existsb (fun b => Z_of_byte b =? c) bs in
  let quote := if has 39 && negb (has 34) then 34 else 39 in
  lit "b" ++ [Z.to_N quote] ++ (bs ≫= bytes_repr_char quote) ++ [Z.to_N quote].

(** *** [str(x)], as used by [format] and [%s] *)

Definition py_str (a : atom) : str :=
  match a with
  | ANone => lit "None"
  | ABool true => lit "True"
  | ABool false => lit "False"
  | AInt z => str_of_int z
  | AStr s => s
  | ABytes b => bytes_repr b
  end.

(** Replace each two-character hole [o c] of the template by the next
    argument.  [str_format] is [template.format] applied to the arguments for templates
    whose only replacement fields are [{}]; [str_percent] is
    [template % arg] for templates whose only conversion is [%s]. *)
Fixpoint fill (o c : N) (template : str) (args : list atom) : res str :=
  match template with
  | [] => Ok []
  | x :: t' =>
      match t' with
      | y :: t'' =>
          if (x =? o)%N && (y =? c)%N then
            match args with
            | [] => Raise IndexError
            | a :: args' => res_map (app (py_str a)) (fill o c t'' args')
            end
          else res_map (cons x) (fill o c t' args)
      | [] => Ok [x]
      end
  end.

Definition str_format (template : str) (args : list atom) : res str :=
  fill 123 125 template args.

Definition str_percent (template : str) (arg : atom) : res str :=
  fill 37 115 template [arg].

(** [sep.join(parts)] *)
Fixpoint str_join (sep : str) (parts : list str) : str :=
  match parts with
  | [] => []
  | [p] => p
  | p :: ps => p ++ sep ++ str_join sep ps
  end.

Definition startswith (s prefix : str) : bool :=
  bool_decide (take (length prefix) s = prefix).

(** *** [round(x)] on the exact value of a float, ties to even *)

Definition py_round (x : Q) : Z :=
  let f := Qfloor x in
  match Qcompare (x - inject_Z f) (1 # 2) with
  | Lt => f
  | Gt => f + 1
  | Eq => if Z.even f then f else f + 1
  end.

(** ** Dicts: insertion-ordered association lists *)

Section Dict.
Context {V : Type}.

Fixpoint dict_get (d : list (str * V)) (k : str) : option V :=
  match d with
  | [] => None
  | (k', v) :: d' => if decide (k' = k) then Some v else dict_get d' k
  end.

(** [d[k] = v] *)
Fixpoint dict_set (d : list (str * V)) (k : str) (v : V) : list (str * V) :=
  match d with
  | [] => [(k, v)]
  | (k', v') :: d' =>
      if decide (k' = k) then (k', v) :: d' else (k', v') :: dict_set d' k v
  end.

(** [d.update(other)] *)
Definition dict_update (d other : list (str * V)) : list (str * V) :=
  fold_left (fun acc kv => dict_set acc kv.1 kv.2) other d.

(** A dict display [{k1: v1, ..., kn: vn}] *)
Definition dict_display (items : list (str * V)) : list (str * V) :=
  dict_update [] items.

Definition dict_keys (d : list (str * V)) : list str := fst <$> d.

End Dict.

Abbreviation fields := (list (list N * atom)).
Abbreviation kwargs := (list (list N * value)).

(** ** The world: heap of dicts, clock, network, and the client instance *)

(** [class API_TYPE(Enum)] *)
Inductive API_TYPE := ORDER | USER | QUOTE.

(** Parsed JSON as Python data; [JNone] is Python's [None]. *)
#[local] Unset Elimination Schemes.
Inductive jval :=
| JNone
| JBool (b : bool)
| JInt (z : Z)
| JFloat (q : Q)
| JStr (s : str)
| JList (l : list jval)
| JDict (d : list (str * jval)).
#[local] Set Elimination Schemes.

(** A [requests.Response]: its status code and what [.json()] does. *)
Record response := {
  status_code : Z;
  json : res jval }.

(** One call [session.<method>(uri, **kwargs)], with the heap that the
    references in its keyword arguments point into. *)
Record call := {
  c_method : str;
  c_uri : str;
  c_kwargs : kwargs;
  c_heap : list fields }.

(** The attributes [__init__] sets on the instance.  The mapping given
    as [requests_params] is only ever read by the class; the dicts it
    refers to live in the heap. *)
Record Client := {
  API_KEY : str;
  API_SECRET : str;
  _session : loc;
  _requests_params : option kwargs }.

(** The state a method runs in: the instance, the heap of dicts, the
    clock as [time.time()] reads it (a float is a rational number), the
    answers the network will give, and the calls sent so far. *)
Record world := {
  self : Client;
  heap : list fields;
  clock : Q;
  inbox : list (res response);
  outbox : list call }.

Definition M (A : Type) : Type := world -> res A * world.

Definition ret {A} (a : A) : M A := fun w => (Ok a, w).
Definition bind {A B} (m : M A) (k : A -> M B) : M B := fun w =>
  match m w with
  | (Ok a, w') => k a w'
  | (Raise e, w') => (Raise e, w')
  end.

Declare Scope M_scope.
Delimit Scope M_scope with M.
Notation "x ← y ; z" := (bind y (fun x => z))
  (at level 20, y at level 100, z at level 200, only parsing) : M_scope.
Notation "x ;; z" := (bind x (fun _ => z))
  (at level 100, z at level 200, only parsing, right associativity) : M_scope.
Local Open Scope M_scope.

Definition raise {A} (e : exn) : M A := fun w => (Raise e, w).
Definition lift {A} (r : res A) : M A := fun w => (r, w).
Definition gets {A} (f : world -> A) : M A := fun w => (Ok (f w), w).
Definition modify (f : world -> world) : M unit := fun w => (Ok tt, f w).

Definition set_self (c : Client) (w : world) : world :=
  {| self := c; heap := heap w; clock := clock w;
     inbox := inbox w; outbox := outbox w |}.
Definition set_heap (h : list fields) (w : world) : world :=
  {| self := self w; heap := h; clock := clock w;
     inbox := inbox w; outbox := outbox w |}.
Definition set_net (i : list (res response)) (o : list call) (w : world) : world :=
  {| self := self w; heap := heap w; clock := clock w;
     inbox := i; outbox := o |}.

(** A fresh dict object. *)
Definition alloc (d : fields) : M loc := fun w =>
  (Ok (length (heap w)), set_heap (heap w ++ [d]) w).

(** Reading the dict behind a value; only dicts are mappings.  A
    reference that points outside the heap does not arise in Python;
    reading through one raises. *)
Definition deref (v : value) : M fields := fun w =>
  match v with
  | VDict l =>
      match heap w !! l with
      | Some d => (Ok d, w)
      | None => (Raise KeyError, w)
      end
  | VAtom _ => (Raise TypeError, w)
  end.

(** [kw[name]] *)
Definition getitem (kw : kwargs) (name : str) : M value :=
  match dict_get kw name with
  | Some v => ret v
  | None => raise KeyError
  end.

(** [kw[name][k] = a] *)
Definition setitem_in (kw : kwargs) (name k : str) (a : atom) : M unit :=
  v ← getitem kw name;
  d ← deref v;
  match v with
  | VDict l => modify (fun w => set_heap (<[l := dict_set d k a]> (heap w)) w)
  | VAtom _ => raise TypeError
  end.

(** [time.time()] *)
Definition time_time : M Q := gets clock.

(** The HTTP-verb methods of a [requests.Session]; other attribute
    names are not modelled. *)
Definition session_verbs : list str :=
  [lit "get"; lit "options"; lit "head"; lit "post"; lit "put";
   lit "patch"; lit "delete"].

(** The keyword parameters of [Session.request] other than [method] and
    [url], which the verb methods fill in themselves. *)
Definition request_keywords : list str :=
  [lit "params"; lit "data"; lit "headers"; lit "cookies"; lit "files";
   lit "auth"; lit "timeout"; lit "allow_redirects"; lit "proxies";
   lit "hooks"; lit "stream"; lit "verify"; lit "cert"; lit "json"].

(** Every keyword of [kw] is one that [Session.request] takes. *)
Definition keywords_accepted (kw : kwargs) : Prop :=
  Forall (fun k => k ∈ request_keywords) (dict_keys kw).

(** [getattr(self._session, method)(uri, **kwargs)].  The verb methods
    hand their keyword arguments on to [Session.request], whose
    parameter list is fixed: a keyword outside it raises [TypeError],
    and no request is made.  A call that binds goes out, and the
    network answers with the next scripted response or with a
    transport fault; what the library and the server make of the
    values passed is part of that answer. *)
Definition session_call (method uri : str) (kw : kwargs) : M response :=
  if bool_decide (method ∈ session_verbs) then
    if bool_decide (keywords_accepted kw) then
      fun w =>
        let c := {| c_method := method; c_uri := uri;
                    c_kwargs := kw; c_heap := heap w |} in
        match inbox w with
        | [] => (Raise ConnectionError, set_net [] (outbox w ++ [c]) w)
        | r :: rest => (r, set_net rest (outbox w ++ [c]) w)
        end
    else raise TypeError
  else raise AttributeError.

(** ** [class Client] *)

Definition API_URL : str := lit "https://api.sfex.net".
Definition API_ORDER : str := lit "order".
Definition API_USER : str := lit "balance".
Definition API_QUOTE : str := lit "https://q.sfex.net/v1".

(** The session's own default headers (user agent and the like) are
    left out; only the two the client sets are kept. *)
Definition _init_session : M loc :=
  alloc (dict_display
           [(lit "Accept", AStr (lit "application/json"));
            (lit "Content-Type", AStr (lit "application/x-www-form-urlencoded"))]).

Definition __init__ (api_key api_secret : str)
    (requests_params : option kwargs) : M unit :=
  session ← _init_session;
  modify (set_self {| API_KEY := api_key; API_SECRET := api_secret;
                      _session := session;
                      _requests_params := requests_params |}).

Definition _create_api_uri (path : str) (api_type : API_TYPE) : res str :=
  match api_type with
  | ORDER => str_format (lit "{}/{}/{}") [AStr API_URL; AStr API_ORDER; AStr path]
  | USER => str_format (lit "{}/{}/{}") [AStr API_URL; AStr API_USER; AStr path]
  | QUOTE => str_format (lit "{}/{}") [AStr API_QUOTE; AStr path]
  end.

(** The loop of [_order_params]: append each item of [data.items()]. *)
Definition _order_params (data : fields) : list (str * atom) :=
  fold_left (fun params kv => params ++ [(kv.1, kv.2)]) data [].

Fixpoint format_pairs (l : list (str * atom)) : res (list str) :=
  match l with
  | [] => Ok []
  | d :: l' =>
      res_bind (str_format (lit "{}={}") [AStr d.1; d.2]) (fun s =>
      res_bind (format_pairs l') (fun ss => Ok (s :: ss)))
  end.

Definition _generate_signature (c : Client) (data : fields) : res bytes :=
  let ordered_data := _order_params data in
  res_bind (format_pairs ordered_data) (fun parts =>
  let query_string := str_join (lit "&") parts in
  res_bind (encode_utf8 (API_SECRET c)) (fun key =>
  res_bind (encode_utf8 query_string) (fun msg =>
  Ok (b64encode (hmac_sha256 key msg))))).

Definition _handle_response (r : response) : res jval :=
  if negb (startswith (py_str (AInt (status_code r))) (lit "2")) then Ok JNone
  else
    match json r with
    | Ok v => Ok v
    | Raise ValueError => Ok JNone
    | Raise e => Raise e
    end.

(** [v and isinstance(v, dict)] for [v = kwargs.get(name, None)] *)
Definition nonempty_dict (v : option value) : M bool :=
  match v with
  | Some (VDict l) => d ← deref (VDict l); ret (negb (bool_decide (d = [])))
  | _ => ret false
  end.

(** [x = kwargs.get(name, None)], then [kwargs[name] = x] when [x] is a
    non-empty dict and [kwargs[name] = {}] otherwise. *)
Definition normalize (kw : kwargs) (name : str) : M kwargs :=
  let x := dict_get kw name in
  keep ← nonempty_dict x;
  if keep then ret (dict_set kw name (default (VAtom ANone) x))
  else l ← alloc (dict_display []); ret (dict_set kw name (VDict l)).

Definition _request (method path : str) (type : API_TYPE) (signed : bool)
    (kw : kwargs) : M jval :=
  uri ← lift (_create_api_uri path type);
  let kw := dict_set kw (lit "timeout") (VAtom (AInt 10)) in
  rp ← gets (fun w => _requests_params (self w));
  let kw := match rp with
            | Some (e :: r) => dict_update kw (e :: r)
            | _ => kw
            end in
  kw ← normalize kw (lit "data");
  kw ← normalize kw (lit "params");
  h ← alloc (dict_display []);
  let kw := dict_set kw (lit "headers") (VDict h) in
  setitem_in kw (lit "headers") (lit "version") (AStr (lit "2.4"));;
  (if signed then
     t ← time_time;
     setitem_in kw (lit "data") (lit "nonce") (AInt (py_round t));;
     key ← gets (fun w => API_KEY (self w));
     setitem_in kw (lit "headers") (lit "key") (AStr key);;
     c ← gets self;
     v ← getitem kw (lit "data");
     d ← deref v;
     sign ← lift (_generate_signature c d);
     setitem_in kw (lit "headers") (lit "sign") (ABytes sign)
   else ret tt);;
  response ← session_call method uri kw;
  lift (_handle_response response).

(** Defaults of the wrappers: [type=API_TYPE.ORDER], [signed=False]. *)
Definition _get (path : str) (type : API_TYPE) (signed : bool) (kw : kwargs) : M jval :=
  _request (lit "get") path type signed kw.
Definition _post (path : str) (type : API_TYPE) (signed : bool) (kw : kwargs) : M jval :=
  _request (lit "post") path type signed kw.
Definition _put (path : str) (type : API_TYPE) (signed : bool) (kw : kwargs) : M jval :=
  _request (lit "put") path type signed kw.
Definition _delete (path : str) (type : API_TYPE) (signed : bool) (kw : kwargs) : M jval :=
  _request (lit "delete") path type signed kw.

Definition _create_order (symbol side price amount : atom) : M jval :=
  params ← alloc (dict_display
                    [(lit "symbol", symbol); (lit "side", side);
                     (lit "type", AInt 1); (lit "price", price);
                     (lit "amount", amount)]);
  _post (lit "create") ORDER true [(lit "data", VDict params)].

Definition get_ticker (symbol : atom) : M jval :=
  params ← alloc (dict_display []);
  path ← lift (str_percent (lit "ticker/%s") symbol);
  _get path QUOTE false [(lit "data", VDict params)].

Definition get_depth (symbol : atom) : M jval :=
  params ← alloc (dict_display
                    [(lit "offset", AInt 10); (lit "accuracy", AInt 5);
                     (lit "size", AInt 5)]);
  path ← lift (str_percent (lit "orderbook/%s") symbol);
  _get path QUOTE false [(lit "data", VDict params)].

Definition get_user_balance : M jval :=
  params ← alloc (dict_display []);
  _post (lit "list") USER true [(lit "data", VDict params)].

Definition create_buy_order (symbol price amount : atom) : M jval :=
  _create_order symbol (AInt 1) price amount.

Definition create_sell_order (symbol price amount : atom) : M jval :=
  _create_order symbol (AInt 2) price amount.

Definition get_history_orders (page size : atom) : M jval :=
  params ← alloc (dict_display [(lit "page", page); (lit "size", size)]);
  _post (lit "history") ORDER true [(lit "data", VDict params)].

Definition cancel_order (symbol order_id : atom) : M jval :=
  params ← alloc (dict_display [(lit "symbol", symbol); (lit "order_id", order_id)]);
  _post (lit "remove") ORDER true [(lit "data", VDict params)].

Definition get_open_orders (symbol page size : atom) : M jval :=
  params ← alloc (dict_display
                    [(lit "symbol", symbol); (lit "page", page); (lit "size", size)]);
  _post (lit "active") ORDER true [(lit "data", VDict params)].

(** ** Notions used to state the properties *)

Definition hex_digit (x : Z) : byte :=
  nth (Z.to_nat (Z.land x 15)) (blit "0123456789abcdef") x00.

Definition hexdigest (bs : bytes) : bytes :=
  bs ≫= (fun b => [hex_digit (Z.shiftr (Z_of_byte b) 4); hex_digit (Z_of_byte b)]).

(** The text of one pair, [key=value]. *)
Definition pair_text (kv : str * atom) : str :=
  kv.1 ++ lit "=" ++ py_str kv.2.

(** The canonical string of the specification: [key=value] for each
    pair of the mapping, in its iteration order, separated by [&]. *)
Fixpoint canonical_string (d : fields) : str :=
  match d with
  | [] => []
  | kv :: rest =>
      match rest with
      | [] => pair_text kv
      | _ :: _ => pair_text kv ++ lit "&" ++ canonical_string rest
      end
  end.

(** The signature of the specification: Base64 of the HMAC-SHA-256,
    keyed by the UTF-8 octets of the secret, of the UTF-8 octets of the
    canonical string. *)
Definition spec_signature (secret : str) (d : fields) : res bytes :=
  res_bind (encode_utf8 secret) (fun key =>
  res_bind (encode_utf8 (canonical_string d)) (fun msg =>
  Ok (b64encode (hmac_sha256 key msg)))).

(** What a key or value contributes to the canonical string. *)
Definition rendered (d : fields) : list (str * str) :=
  (fun kv => (kv.1, py_str kv.2)) <$> d.

(** Text free of the two separators [&] and [=]. *)
Definition delimiter_free (s : str) : Prop := (38%N ∉ s) /\ (61%N ∉ s).

Definition fields_delimiter_free (d : fields) : Prop :=
  Forall (fun kv => delimiter_free kv.1 ∧ delimiter_free kv.2) (rendered d).

(** The host part of a URL: what stands between [//] and the next [/]. *)
Fixpoint after_slashes (u : str) : str :=
  match u with
  | [] => []
  | x :: u' =>
      match u' with
      | y :: u'' => if (x =? 47)%N && (y =? 47)%N then u'' else after_slashes u'
      | [] => []
      end
  end.

Fixpoint upto_slash (u : str) : str :=
  match u with
  | [] => []
  | x :: u' => if (x =? 47)%N then [] else x :: upto_slash u'
  end.

Definition url_host (u : str) : str := upto_slash (after_slashes u).

(** [d] is the first decimal digit of [n]. *)
Definition leading_digit (n d : Z) : Prop :=
  1 <= d <= 9 /\ exists k, 0 <= k /\ d * 10 ^ k <= n < (d + 1) * 10 ^ k.

(** The dict a call passes under the keyword [name]. *)
Definition call_dict (c : call) (name : str) : option fields :=
  match dict_get (c_kwargs c) name with
  | Some (VDict l) => c_heap c !! l
  | _ => None
  end.

(** A client used in the examples. *)
Definition sample_client : Client :=
  {| API_KEY := lit "KEY"; API_SECRET := lit "SECRET";
     _session := 0%nat; _requests_params := None |}.

(** *** A closed form of the dispatcher

    [_request] is proved equal to [request_closed] below, which names
    the objects involved: the merged keyword arguments, the dicts that
    [data] and [params] resolve to, the fresh header dict. *)

(** [kwargs] once the timeout and the global request parameters are in. *)
Definition merged (c : Client) (kw : kwargs) : kwargs :=
  let kw := dict_set kw (lit "timeout") (VAtom (AInt 10)) in
  match _requests_params c with
  | Some (e :: r) => dict_update kw (e :: r)
  | _ => kw
  end.

(** What [kwargs.get(name)] resolves to: the caller's non-empty dict is
    kept, anything else is replaced by a fresh empty dict. *)
Inductive resolved :=
| Kept (l : loc)
| Fresh
| Dangling.

Definition resolve (h : list fields) (v : option value) : resolved :=
  match v with
  | Some (VDict l) =>
      match h !! l with
      | Some [] => Fresh
      | Some (_ :: _) => Kept l
      | None => Dangling
      end
  | _ => Fresh
  end.

Definition resolved_loc (h : list fields) (r : resolved) : loc :=
  match r with
  | Kept l => l
  | _ => length h
  end.

Definition resolved_heap (h : list fields) (r : resolved) : list fields :=
  match r with
  | Fresh => h ++ [[]]
  | _ => h
  end.

Definition uri_of (path : str) (t : API_TYPE) : str :=
  match t with
  | ORDER => API_URL ++ lit "/" ++ API_ORDER ++ lit "/" ++ path
  | USER => API_URL ++ lit "/" ++ API_USER ++ lit "/" ++ path
  | QUOTE => API_QUOTE ++ lit "/" ++ path
  end.

(** The last two lines of [_request]. *)
Definition send (method uri : str) (kw : kwargs) : M jval :=
  response ← session_call method uri kw;
  lift (_handle_response response).

Definition version_header : str * atom := (lit "version", AStr (lit "2.4")).

Definition request_closed (method path : str) (type : API_TYPE) (signed : bool)
    (kw : kwargs) (w : world) : res jval * world :=
  let kw2 := merged (self w) kw in
  let rd := resolve (heap w) (dict_get kw2 (lit "data")) in
  let ld := resolved_loc (heap w) rd in
  let h1 := resolved_heap (heap w) rd in
  let kw3 := dict_set kw2 (lit "data") (VDict ld) in
  let rp := resolve h1 (dict_get kw3 (lit "params")) in
  let lp := resolved_loc h1 rp in
  let h2 := resolved_heap h1 rp in
  let kw4 := dict_set kw3 (lit "params") (VDict lp) in
  let kw5 := dict_set kw4 (lit "headers") (VDict (length h2)) in
  match rd, rp with
  | Dangling, _ => (Raise KeyError, w)
  | _, Dangling => (Raise KeyError, set_heap h1 w)
  | _, _ =>
      if signed then
        let body := dict_set (default [] (h2 !! ld)) (lit "nonce")
                             (AInt (py_round (clock w))) in
        let h3 := <[ld := body]> h2 in
        let key := (lit "key", AStr (API_KEY (self w))) in
        match _generate_signature (self w) body with
        | Ok sign =>
            send method (uri_of path type) kw5
              (set_heap (h3 ++ [[version_header; key; (lit "sign", ABytes sign)]]) w)
        | Raise e => (Raise e, set_heap (h3 ++ [[version_header; key]]) w)
        end
      else
        send method (uri_of path type) kw5 (set_heap (h2 ++ [[version_header]]) w)
  end.

(** *** Vocabulary of the statements *)

(** Running [m] in [w] sends exactly one call, [c]. *)
Definition issues {A} (m : M A) (w : world) (c : call) : Prop :=
  outbox (m w).2 = outbox w ++ [c].

(** The global request parameters carry no entry [name]. *)
Definition no_override (c : Client) (name : str) : Prop :=
  match _requests_params c with
  | Some rp => dict_get rp name = None
  | None => True
  end.

(** The client has no global request parameters: [requests_params] was
    left at [None], or is an empty mapping. *)
Definition no_global_params (c : Client) : Prop :=
  _requests_params c = None \/ _requests_params c = Some [].

(** Every key of the global request parameters is a keyword that
    [Session.request] takes. *)
Definition params_accepted (c : Client) : Prop :=
  match _requests_params c with
  | Some rp => keywords_accepted rp
  | None => True
  end.

(** The content of a resolved dict: the caller's, or empty. *)
Definition content (h : list fields) (r : resolved) : fields :=
  match r with
  | Kept l => default [] (h !! l)
  | _ => []
  end.

(** The content, before the dispatcher touches it, of the dict that the
    keyword [name] resolves to. *)
Definition dict_before (name : str) (kw : kwargs) (w : world) : fields :=
  content (heap w) (resolve (heap w) (dict_get (merged (self w) kw) name)).

(** The headers the dispatcher assembles. *)
Definition key_header (c : Client) : str * atom := (lit "key", AStr (API_KEY c)).
Definition sign_header (sign : bytes) : str * atom := (lit "sign", ABytes sign).

(** Code points that UTF-8 can encode: no surrogates, at most U+10FFFF. *)
Definition scalar_value (c : N) : Prop :=
  ((c < 0xD800)%N \/ (0xE000 <= c)%N) /\ (c < 0x110000)%N.

Definition encodable (s : str) : Prop := Forall scalar_value s.

(** Text made of code points below 256. *)
Definition narrow (s : str) : Prop := Forall (fun c => (c < 256)%N) s.

Definition atom_encodable (a : atom) : Prop :=
  match a with
  | AStr s => encodable s
  | _ => True
  end.

Definition fields_encodable (d : fields) : Prop :=
  Forall (fun kv => encodable kv.1 /\ atom_encodable kv.2) d.

(** The interpreter's default limit on the number of decimal digits of
    an [int] that is turned into text. *)
Definition int_max_str_digits : Z := 4300.

(** Values that [str], [format] and [%s] turn into text that UTF-8 can
    encode: [None], a [bool], [bytes], an [int] of at most 4300 digits,
    a [str] without surrogates. *)
Definition atom_printable (a : atom) : Prop :=
  match a with
  | AInt z => Z.abs z < 10 ^ int_max_str_digits
  | AStr s => encodable s
  | _ => True
  end.

(** Values that travel in a form-encoded body as they are printed:
    printable, and not [None] (a field whose value is [None] is left
    out of the body by [requests]). *)
Definition atom_sendable (a : atom) : Prop :=
  a <> ANone /\ atom_printable a.

(** Text that [requests] and [http.client] take as the value of a
    header: visible ASCII characters. *)
Definition header_text (s : str) : Prop :=
  Forall (fun c => (33 <= c <= 126)%N) s.

(** The public endpoint methods and their arguments. *)
Inductive endpoint :=
| Ticker (symbol : atom)
| Depth (symbol : atom)
| UserBalance
| BuyOrder (symbol price amount : atom)
| SellOrder (symbol price amount : atom)
| HistoryOrders (page size : atom)
| CancelOrder (symbol order_id : atom)
| OpenOrders (symbol page size : atom).

Definition invoke (e : endpoint) : M jval :=
  match e with
  | Ticker symbol => get_ticker symbol
  | Depth symbol => get_depth symbol
  | UserBalance => get_user_balance
  | BuyOrder symbol price amount => create_buy_order symbol price amount
  | SellOrder symbol price amount => create_sell_order symbol price amount
  | HistoryOrders page size => get_history_orders page size
  | CancelOrder symbol order_id => cancel_order symbol order_id
  | OpenOrders symbol page size => get_open_orders symbol page size
  end.

(** A session: the calls are made one after the other, whatever each
    returns or raises. *)
Definition invoke_all (es : list endpoint) (w : world) : world :=
  fold_left (fun w e => (invoke e w).2) es w.

(** The same world with another API secret. *)
Definition with_secret (s : str) (w : world) : world :=
  set_self {| API_KEY := API_KEY (self w); API_SECRET := s;
              _session := _session (self w);
              _requests_params := _requests_params (self w) |} w.

(** The table of endpoint methods: HTTP method, path, category, signed
    flag, and the fields passed as [data]. *)
Record plan := {
  p_method : str;
  p_path : str;
  p_type : API_TYPE;
  p_signed : bool;
  p_fields : fields }.

Definition order_fields (symbol side price amount : atom) : fields :=
  [(lit "symbol", symbol); (lit "side", side); (lit "type", AInt 1);
   (lit "price", price); (lit "amount", amount)].

Definition endpoint_plan (e : endpoint) : plan :=
  match e with
  | Ticker symbol =>
      {| p_method := lit "get"; p_path := lit "ticker/" ++ py_str symbol;
         p_type := QUOTE; p_signed := false; p_fields := [] |}
  | Depth symbol =>
      {| p_method := lit "get"; p_path := lit "orderbook/" ++ py_str symbol;
         p_type := QUOTE; p_signed := false;
         p_fields := [(lit "offset", AInt 10); (lit "accuracy", AInt 5);
                      (lit "size", AInt 5)] |}
  | UserBalance =>
      {| p_method := lit "post"; p_path := lit "list";
         p_type := USER; p_signed := true; p_fields := [] |}
  | BuyOrder symbol price amount =>
      {| p_method := lit "post"; p_path := lit "create";
         p_type := ORDER; p_signed := true;
         p_fields := order_fields symbol (AInt 1) price amount |}
  | SellOrder symbol price amount =>
      {| p_method := lit "post"; p_path := lit "create";
         p_type := ORDER; p_signed := true;
         p_fields := order_fields symbol (AInt 2) price amount |}
  | HistoryOrders page size =>
      {| p_method := lit "post"; p_path := lit "history";
         p_type := ORDER; p_signed := true;
         p_fields := [(lit "page", page); (lit "size", size)] |}
  | CancelOrder symbol order_id =>
      {| p_method := lit "post"; p_path := lit "remove";
         p_type := ORDER; p_signed := true;
         p_fields := [(lit "symbol", symbol); (lit "order_id", order_id)] |}
  | OpenOrders symbol page size =>
      {| p_method := lit "post"; p_path := lit "active";
         p_type := ORDER; p_signed := true;
         p_fields := [(lit "symbol", symbol); (lit "page", page);
                      (lit "size", size)] |}
  end.

(** The body a signed call carries: the fields and then the nonce. *)
Definition with_nonce (d : fields) (w : world) : fields :=
  dict_set d (lit "nonce") (AInt (py_round (clock w))).

(** The dict that the global request parameters give for [name], if
    any, exists in the heap. *)
Definition override_valid (w : world) (name : str) : Prop :=
  forall rp l, _requests_params (self w) = Some rp ->
               (name, VDict l) ∈ rp -> (l < length (heap w))%nat.

(** A value that, if it is a dict reference, points into the heap. *)
Definition ref_valid (h : list fields) (v : option value) : Prop :=
  forall l, v = Some (VDict l) -> (l < length h)%nat.

(** *** Worlds used in the examples *)

(** A successful JSON answer. *)
Definition ok_response : response :=
  {| status_code := 200; json := Ok (JDict [(lit "code", JInt 0)]) |}.

(** A client built with the defaults, at clock 1700000000.4, with one
    answer waiting on the network. *)
Definition sample_world : world :=
  {| self := sample_client; heap := []; clock := 17000000004 # 10;
     inbox := [Ok ok_response]; outbox := [] |}.

(** The same, for a client built with
    [requests_params={'data': {'x': 1}}]. *)
Definition override_world : world :=
  {| self := {| API_KEY := lit "KEY"; API_SECRET := lit "SECRET";
                _session := 0%nat;
                _requests_params := Some [(lit "data", VDict 0)] |};
     heap := [[(lit "x", AInt 1)]]; clock := 17000000004 # 10;
     inbox := [Ok ok_response]; outbox := [] |}.

(** A world in which the caller holds an empty dict at location 0. *)
Definition empty_data_world : world :=
  {| self := sample_client; heap := [[]]; clock := 17000000004 # 10;
     inbox := [Ok ok_response]; outbox := [] |}.

(** *** The claims that fail as stated *)





(** After the signed dispatch, the dict at [l] holds the nonce and is
    not what it was. *)
Definition nonce_added (method path : str) (type : API_TYPE) (kw : kwargs)
    (w : world) (l : loc) : Prop :=
  let w' := (_request method path type true kw w).2 in
  (exists d, heap w' !! l = Some d
             /\ dict_get d (lit "nonce") = Some (AInt (py_round (clock w))))
  /\ heap w' !! l <> heap w !! l.

(** The headers of the call [c] of a client [cl] are the ones the
    specification gives: the version alone for an unsigned call; for a
    signed call the version, the API key, and as [sign] the
    specification's signature, under the client's secret, of the body
    that [c] carries. *)
Definition headers_as_specified (signed : bool) (cl : Client) (c : call) : Prop :=
  if signed then
    exists body sign,
      call_dict c (lit "data") = Some body
      /\ call_dict c (lit "headers")
         = Some [version_header; key_header cl; sign_header sign]
      /\ spec_signature (API_SECRET cl) body = Ok sign
  else call_dict c (lit "headers") = Some [version_header].

(** Two calls that differ at most in the value of the [sign] header:
    same method, URL and keyword arguments, the same dict behind every
    reference except for the header dict, and header dicts with the
    same keys and, but for [sign], the same values. *)
Definition agree_but_sign (c1 c2 : call) : Prop :=
  c_method c1 = c_method c2
  /\ c_uri c1 = c_uri c2
  /\ c_kwargs c1 = c_kwargs c2
  /\ call_dict c1 (lit "data") = call_dict c2 (lit "data")
  /\ call_dict c1 (lit "params") = call_dict c2 (lit "params")
  /\ (forall l, dict_get (c_kwargs c1) (lit "headers") <> Some (VDict l) ->
         c_heap c1 !! l = c_heap c2 !! l)
  /\ exists h1 h2,
       call_dict c1 (lit "headers") = Some h1
       /\ call_dict c2 (lit "headers") = Some h2
       /\ dict_keys h1 = dict_keys h2
       /\ forall k, k <> lit "sign" -> dict_get h1 k = dict_get h2 k.

(** Two string literals differ. *)
Ltac lit_ne := let H := fresh in intros H; vm_compute in H; discriminate H.

(** *** Vocabulary of the further properties *)

(** Running [m] in [w] sends one signed POST to [url] with body [body]:
    the headers are the version, the API key and the signature of
    [body] under the secret. *)
Definition signed_post (m : M jval) (w : world) (url : str) (body : fields) : Prop :=
  exists c sign,
    issues m w c
    /\ c_method c = lit "post"
    /\ c_uri c = url
    /\ call_dict c (lit "data") = Some body
    /\ call_dict c (lit "headers")
       = Some [version_header; key_header (self w); sign_header sign]
    /\ spec_signature (API_SECRET (self w)) body = Ok sign.

(** The answer of the network to the next call, decoded. *)
Definition next_answer (w : world) : res jval :=
  match inbox w with
  | [] => Raise ConnectionError
  | r :: _ => res_bind r _handle_response
  end.



(** Fields whose integers are within the limit of [str]. *)
Definition ints_printable (d : fields) : Prop :=
  Forall (fun kv => match kv.2 with
                    | AInt z => Z.abs z < 10 ^ int_max_str_digits
                    | _ => True
                    end) d.

(** * Properties *)

(** ** The library functions agree with their published test vectors *)

Example sha256_constants :
  length SHA256.K = 64%nat /\ length SHA256.H0 = 8%nat
  /\ head SHA256.K = Some 0x428a2f98 /\ last SHA256.K = Some 0xc67178f2
  /\ head SHA256.H0 = Some 0x6a09e667 /\ last SHA256.H0 = Some 0x5be0cd19.
Proof. vm_compute. auto 10. Qed.

Example sha256_abc :
  hexdigest (SHA256.digest (blit "abc"))
  = blit "ba7816bf8f01cfea414140de5dae2223b00361a396177a9cb410ff61f20015ad".
Proof. vm_compute. reflexivity. Qed.

Example sha256_empty :
  hexdigest (SHA256.digest [])
  = blit "e3b0c44298fc1c149afbf4c8996fb92427ae41e4649b934ca495991b7852b855".
Proof. vm_compute. reflexivity. Qed.

Example sha256_two_blocks :
  hexdigest (SHA256.digest
    (blit "abcdbcdecdefdefgefghfghighijhijkijkljklmklmnlmnomnopnopq"))
  = blit "248d6a61d20638b8e5c026930c3e6039a33ce45964ff2167f6ecedd419db06c1".
Proof. vm_compute. reflexivity. Qed.

Example hmac_fox :
  b64encode (hmac_sha256 (blit "key")
               (blit "The quick brown fox jumps over the lazy dog"))
  = blit "97yD9DBThCSxMpjmqm+xQ+9NWaFJRhdZl0edvC0aPNg=".
Proof. vm_compute. reflexivity. Qed.

Example hmac_long_key :
  b64encode (hmac_sha256 (SHA256.be_bytes 100 12345678901234567890)
               (blit "a=1&b=2"))
  = blit "+9SABTChsImI0eaRXADP7wito25cLou66Wd+jegxA68=".
Proof. vm_compute. reflexivity. Qed.

Example b64_padding :
  b64encode (blit "f") = blit "Zg==" /\ b64encode (blit "fo") = blit "Zm8="
  /\ b64encode (blit "foobar") = blit "Zm9vYmFy".
Proof. vm_compute. auto. Qed.

Example utf8_widths :
  encode_utf8 [233; 8364; 128512; 65]%N
  = Ok (byte_of_Z <$> [0xc3; 0xa9; 0xe2; 0x82; 0xac; 0xf0; 0x9f; 0x98; 0x80; 0x41])
  /\ encode_utf8 [0xD800%N] = Raise UnicodeEncodeError.
Proof. vm_compute. auto. Qed.

Example py_round_ties :
  py_round (5 # 2) = 2 /\ py_round (7 # 2) = 4 /\ py_round (-5 # 2) = -2
  /\ py_round (26 # 10) = 3 /\ py_round (24 # 10) = 2.
Proof. vm_compute. auto. Qed.

(** ** Signer *)

Lemma res_bind_Ok {A B} (a : A) (k : A -> res B) : res_bind (Ok a) k = k a.
Proof. reflexivity. Qed.

Lemma fill_pair (k : str) (v : atom) :
  str_format (lit "{}={}") [AStr k; v] = Ok (pair_text (k, v)).
Proof.
  unfold str_format, pair_text. cbn. by rewrite app_nil_r.
Qed.

Lemma order_params_id (data : fields) : _order_params data = data.
Proof.
  unfold _order_params.
  enough (H : forall acc, fold_left (fun params kv => params ++ [(kv.1, kv.2)]) data acc
                          = acc ++ data) by apply (H []).
  induction data as [|[k v] data IH]; intros acc; cbn.
  - by rewrite app_nil_r.
  - rewrite IH, <- app_assoc. reflexivity.
Qed.

Lemma format_pairs_texts (l : list (str * atom)) :
  format_pairs l = Ok (pair_text <$> l).
Proof.
  induction l as [|[k v] l IH]; [reflexivity|].
  cbn [format_pairs fst snd]. rewrite fill_pair, res_bind_Ok, IH. reflexivity.
Qed.

Lemma join_canonical (d : fields) :
  str_join (lit "&") (pair_text <$> d) = canonical_string d.
Proof.
  induction d as [|kv d IH]; [reflexivity|].
  destruct d as [|kv' d]; [reflexivity|].
  change (pair_text kv ++ lit "&" ++ str_join (lit "&") (pair_text <$> kv' :: d)
          = pair_text kv ++ lit "&" ++ canonical_string (kv' :: d)).
  by rewrite IH.
Qed.

(** The signer computes the signature of the specification. *)
Lemma generate_signature_canonical (c : Client) (data : fields) :
  _generate_signature c data = spec_signature (API_SECRET c) data.
Proof.
  unfold _generate_signature, spec_signature.
  rewrite order_params_id, format_pairs_texts, res_bind_Ok, join_canonical.
  reflexivity.
Qed.

(** C1. For every parameter mapping, [_generate_signature] returns the
    signature of the specification: the Base64 encoding of the
    HMAC-SHA-256 digest, keyed by the UTF-8 octets of the API secret, of
    the UTF-8 octets of the canonical string [k1=v1&...&kn=vn] built in
    the mapping's iteration order (no sorting).  Both sides raise
    [UnicodeEncodeError] together when the secret or the canonical
    string has no UTF-8 encoding. *)
Theorem generate_signature_spec (c : Client) (data : fields) :
  _generate_signature c data
  = res_bind (encode_utf8 (API_SECRET c)) (fun key =>
    res_bind (encode_utf8 (canonical_string data)) (fun msg =>
    Ok (b64encode (hmac_sha256 key msg)))).
Proof. apply generate_signature_canonical. Qed.

(** ** URI builder *)

Lemma create_api_uri_total (path : str) (t : API_TYPE) :
  _create_api_uri path t = Ok (uri_of path t).
Proof.
  destruct t; unfold _create_api_uri, str_format; cbn; by rewrite app_nil_r.
Qed.

(** C4. For every path the URI builder sends category ORDER to
    [{order_host}/order/{path}], USER to [{order_host}/balance/{path}]
    and QUOTE to [{quote_host}/{path}]; the quote host [q.sfex.net] is
    a different domain from the order/user host [api.sfex.net]; and the
    three examples of the specification hold. *)
Theorem create_api_uri_spec :
  (forall path : str,
     _create_api_uri path ORDER = Ok (API_URL ++ lit "/order/" ++ path)
     /\ _create_api_uri path USER = Ok (API_URL ++ lit "/balance/" ++ path)
     /\ _create_api_uri path QUOTE = Ok (API_QUOTE ++ lit "/" ++ path))
  /\ url_host API_URL = lit "api.sfex.net"
  /\ url_host API_QUOTE = lit "q.sfex.net"
  /\ url_host API_QUOTE <> url_host API_URL
  /\ _create_api_uri (lit "ticker/BTCUSD") QUOTE
     = Ok (lit "https://q.sfex.net/v1/ticker/BTCUSD")
  /\ _create_api_uri (lit "create") ORDER
     = Ok (lit "https://api.sfex.net/order/create")
  /\ _create_api_uri (lit "list") USER
     = Ok (lit "https://api.sfex.net/balance/list").
Proof.
  split.
  - intros path. rewrite !create_api_uri_total. repeat split; reflexivity.
  - repeat split; try (vm_compute; reflexivity). vm_compute. discriminate.
Qed.

(** ** Response decoder *)

Lemma digit_char_inj (d e : Z) :
  0 <= d <= 9 -> 0 <= e <= 9 -> digit_char d = digit_char e -> d = e.
Proof. unfold digit_char. intros Hd He H. apply (f_equal Z.of_N) in H. lia. Qed.

(** The first character that [dec_digits] produces is the leading
    digit, provided the fuel covers the number. *)
Lemma dec_digits_head (fuel : nat) :
  forall n acc, 0 < n < 2 ^ Z.of_nat fuel ->
    exists d rest, dec_digits fuel n acc = digit_char d :: rest
                   /\ leading_digit n d.
Proof.
  induction fuel as [|fuel IH]; intros n acc Hn.
  - change (2 ^ Z.of_nat 0) with 1 in Hn. lia.
  - cbn [dec_digits]. destruct (Z.ltb_spec n 10) as [Hlt|Hge].
    + exists n, acc. rewrite Z.mod_small by lia. split; [reflexivity|].
      split; [lia|]. exists 0. change (10 ^ 0) with 1. lia.
    + assert (Hq : 0 < n / 10 < 2 ^ Z.of_nat fuel).
      { rewrite Nat2Z.inj_succ, Z.pow_succ_r in Hn by lia.
        split; [apply Z.div_str_pos; lia|].
        apply Z.div_lt_upper_bound; lia. }
      destruct (IH (n / 10) (digit_char (n mod 10) :: acc) Hq)
        as (d & rest & Heq & Hd & k & Hk & Hlo & Hhi).
      exists d, rest. split; [exact Heq|]. split; [exact Hd|].
      exists (k + 1). split; [lia|].
      rewrite Z.pow_add_r, Z.pow_1_r by lia.
      pose proof (Z.div_mod n 10 ltac:(lia)) as Hdm.
      pose proof (Z.mod_pos_bound n 10 ltac:(lia)) as Hm.
      nia.
Qed.

Lemma log2_fuel (n : Z) : 0 < n -> n < 2 ^ Z.of_nat (S (Z.to_nat (Z.log2 n))).
Proof.
  intros Hn. pose proof (Z.log2_nonneg n) as Hl.
  rewrite Nat2Z.inj_succ, Z2Nat.id by lia.
  apply Z.log2_spec. exact Hn.
Qed.

Lemma leading_digit_unique (n d e : Z) :
  leading_digit n d -> leading_digit n e -> d = e.
Proof.
  intros (Hd & k & Hk & Hlo & Hhi) (He & j & Hj & Hlo' & Hhi').
  assert (Hkj : k = j).
  { destruct (Z.lt_trichotomy k j) as [Hlt|[Heq|Hgt]]; [exfalso| exact Heq |exfalso].
    - assert (10 ^ (k + 1) <= 10 ^ j) by (apply Z.pow_le_mono_r; lia).
      rewrite Z.pow_add_r, Z.pow_1_r in * by lia.
      pose proof (Z.pow_pos_nonneg 10 k ltac:(lia) Hk). nia.
    - assert (10 ^ (j + 1) <= 10 ^ k) by (apply Z.pow_le_mono_r; lia).
      rewrite Z.pow_add_r, Z.pow_1_r in * by lia.
      pose proof (Z.pow_pos_nonneg 10 j ltac:(lia) Hj). nia. }
  subst j. pose proof (Z.pow_pos_nonneg 10 k ltac:(lia) Hk). nia.
Qed.

(** [str(n).startswith('2')] holds exactly when the first decimal digit
    of [n] is 2. *)
Lemma startswith_2_leading (n : Z) :
  startswith (py_str (AInt n)) (lit "2") = true <-> leading_digit n 2.
Proof.
  unfold startswith, py_str, str_of_int.
  rewrite bool_decide_eq_true. change (length (lit "2")) with 1%nat.
  destruct (Z.ltb_spec n 0) as [Hneg|Hnn].
  - split; [intros H; cbn in H; discriminate|].
    intros (_ & k & Hk & Hlo & _).
    pose proof (Z.pow_pos_nonneg 10 k ltac:(lia) Hk). lia.
  - destruct (Z.eq_dec n 0) as [->|Hne].
    + split; [intros H; vm_compute in H; discriminate|].
      intros (_ & k & Hk & Hlo & _).
      pose proof (Z.pow_pos_nonneg 10 k ltac:(lia) Hk). lia.
    + destruct (dec_digits_head (S (Z.to_nat (Z.log2 n))) n []
                  ltac:(split; [lia|apply log2_fuel; lia]))
        as (d & rest & Heq & Hd).
      rewrite Heq. cbn [take]. split.
      * intros H. injection H as H.
        assert (d = 2); [|by subst].
        apply digit_char_inj; [destruct Hd; lia|lia|exact H].
      * intros H2. by rewrite (leading_digit_unique n d 2 Hd H2).
Qed.

(** C6. The decoder returns the absent result [None] without raising
    whenever the first decimal digit of the status code is not 2 (so for
    300, 404 and 500); for a 2xx status it returns the parsed body
    verbatim when [.json()] succeeds, and the absent result when
    [.json()] raises [ValueError] (empty or unparseable body). *)
Theorem handle_response_spec :
  (forall r : response,
     ~ leading_digit (status_code r) 2 -> _handle_response r = Ok JNone)
  /\ (forall j, _handle_response {| status_code := 300; json := j |} = Ok JNone
             /\ _handle_response {| status_code := 404; json := j |} = Ok JNone
             /\ _handle_response {| status_code := 500; json := j |} = Ok JNone)
  /\ (forall (r : response) (v : jval),
        200 <= status_code r <= 299 -> json r = Ok v ->
        _handle_response r = Ok v)
  /\ (forall r : response,
        200 <= status_code r <= 299 -> json r = Raise ValueError ->
        _handle_response r = Ok JNone).
Proof.
  assert (H2xx : forall r, 200 <= status_code r <= 299 ->
            startswith (py_str (AInt (status_code r))) (lit "2") = true).
  { intros r Hr. apply startswith_2_leading. split; [lia|].
    exists 2. change (10 ^ 2) with 100. lia. }
  split; [|split; [|split]].
  - intros r Hr. unfold _handle_response.
    destruct (startswith _ _) eqn:E; [|reflexivity].
    apply startswith_2_leading in E. contradiction.
  - intros j. repeat split; reflexivity.
  - intros r v Hr Hj. unfold _handle_response. by rewrite (H2xx r Hr), Hj.
  - intros r Hr Hj. unfold _handle_response. by rewrite (H2xx r Hr), Hj.
Qed.

(** Instance of C6 at concrete responses. *)
Lemma handle_response_spec_witness :
  _handle_response {| status_code := 503; json := Ok (JInt 1) |} = Ok JNone
  /\ _handle_response {| status_code := 200; json := Ok (JStr (lit "ok")) |}
     = Ok (JStr (lit "ok"))
  /\ _handle_response {| status_code := 204; json := Raise ValueError |} = Ok JNone.
Proof.
  destruct handle_response_spec as (H1 & _ & H3 & H4).
  split; [|split].
  - apply H1. cbn. intros (_ & k & Hk & Hlo & Hhi).
    assert (k < 3).
    { destruct (Z.lt_ge_cases k 3) as [?|Hge]; [assumption|].
      pose proof (Z.pow_le_mono_r 10 3 k ltac:(lia) Hge) as Hp.
      change (10 ^ 3) with 1000 in Hp. lia. }
    assert (Hc : k = 0 \/ k = 1 \/ k = 2) by lia.
    destruct Hc as [-> | [-> | ->]]; cbn in Hlo, Hhi; lia.
  - apply H3; [cbn; lia|reflexivity].
  - apply H4; [cbn; lia|reflexivity].
Defined.

(** ** Determinism of signing, and how far the signed text separates
    mappings *)

Lemma mjoin_cons_eq {A} (x : list A) (l : list (list A)) :
  mjoin (x :: l) = x ++ mjoin l.
Proof. reflexivity. Qed.

Section Join.
Context (sep : str).

Lemma str_join_cons (p : str) (ps : list str) :
  str_join sep (p :: ps) = p ++ mjoin ((fun q => sep ++ q) <$> ps).
Proof.
  revert p. induction ps as [|q ps IH]; intros p.
  - cbn. by rewrite app_nil_r.
  - change (str_join sep (p :: q :: ps)) with (p ++ sep ++ str_join sep (q :: ps)).
    rewrite IH. cbn. by rewrite <- app_assoc.
Qed.

Lemma str_join_middle (l1 : list str) (p : str) (l2 : list str) :
  str_join sep (l1 ++ p :: l2)
  = mjoin ((fun q => q ++ sep) <$> l1) ++ p ++ mjoin ((fun q => sep ++ q) <$> l2).
Proof.
  induction l1 as [|q l1 IH].
  - apply str_join_cons.
  - destruct l1 as [|q' l1].
    + change (str_join sep ([q] ++ p :: l2)) with (q ++ sep ++ str_join sep (p :: l2)).
      rewrite str_join_cons. cbn. by rewrite app_nil_r, <- !app_assoc.
    + change (str_join sep ((q :: q' :: l1) ++ p :: l2))
        with (q ++ sep ++ str_join sep ((q' :: l1) ++ p :: l2)).
      rewrite IH. cbn. by rewrite <- !app_assoc.
Qed.

End Join.

Lemma canonical_middle (pre : fields) (kv : str * atom) (post : fields) :
  canonical_string (pre ++ kv :: post)
  = mjoin ((fun q => q ++ lit "&") <$> (pair_text <$> pre))
    ++ pair_text kv
    ++ mjoin ((fun q => lit "&" ++ q) <$> (pair_text <$> post)).
Proof.
  rewrite <- join_canonical, fmap_app, fmap_cons. apply str_join_middle.
Qed.

(** Splitting at the first occurrence of a separator is unambiguous. *)
Lemma split_at_sep (c : N) (p1 p2 t1 t2 : str) :
  c ∉ p1 -> c ∉ p2 ->
  (t1 = [] \/ exists t, t1 = c :: t) ->
  (t2 = [] \/ exists t, t2 = c :: t) ->
  p1 ++ t1 = p2 ++ t2 -> p1 = p2 /\ t1 = t2.
Proof.
  revert p2. induction p1 as [|x p1 IH]; intros p2 H1 H2 Ht1 Ht2 Heq.
  - destruct p2 as [|y p2]; [by split|]. exfalso. cbn in Heq.
    destruct Ht1 as [->|[t ->]]; [discriminate|].
    injection Heq as -> _. apply H2. left.
  - destruct p2 as [|y p2].
    + exfalso. cbn in Heq.
      destruct Ht2 as [->|[t ->]]; [discriminate|].
      injection Heq as -> _. apply H1. left.
    + cbn in Heq. injection Heq as -> Heq.
      destruct (IH p2) as [-> ->]; auto.
      * intros Hin. apply H1. by right.
      * intros Hin. apply H2. by right.
Qed.

Lemma pair_text_inj (k1 k2 v1 v2 : str) :
  61%N ∉ k1 -> 61%N ∉ k2 ->
  k1 ++ lit "=" ++ v1 = k2 ++ lit "=" ++ v2 -> k1 = k2 /\ v1 = v2.
Proof.
  intros H1 H2 Heq.
  destruct (split_at_sep 61%N k1 k2 (lit "=" ++ v1) (lit "=" ++ v2)) as [-> Ht];
    eauto.
  split; [reflexivity|]. by injection Ht.
Qed.

Lemma pair_text_nonempty (kv : str * atom) : pair_text kv <> [].
Proof.
  unfold pair_text. destruct (kv.1); discriminate.
Qed.

Lemma pair_text_amp_free (kv : str * atom) :
  delimiter_free kv.1 -> delimiter_free (py_str kv.2) -> 38%N ∉ pair_text kv.
Proof.
  intros [Hk _] [Hv _]. unfold pair_text.
  rewrite !elem_of_app. intros [?|[Heq|?]]; [auto| |auto].
  apply list_elem_of_singleton in Heq. discriminate.
Qed.

Lemma canonical_tail_shape (d : fields) :
  let t := mjoin ((fun q => lit "&" ++ q) <$> (pair_text <$> d)) in
  t = [] \/ exists t', t = 38%N :: t'.
Proof. destruct d; [by left|right]. cbn. eauto. Qed.

Lemma canonical_inj (d1 : fields) :
  forall d2, fields_delimiter_free d1 -> fields_delimiter_free d2 ->
    canonical_string d1 = canonical_string d2 -> rendered d1 = rendered d2.
Proof.
  unfold fields_delimiter_free, rendered.
  induction d1 as [|kv1 d1 IH]; intros [|kv2 d2] F1 F2 Heq.
  - reflexivity.
  - exfalso. rewrite <- !join_canonical, fmap_cons, str_join_cons in Heq.
    destruct (pair_text kv2) eqn:E; [by apply pair_text_nonempty in E|discriminate].
  - exfalso. rewrite <- !join_canonical, fmap_cons, str_join_cons in Heq.
    destruct (pair_text kv1) eqn:E; [by apply pair_text_nonempty in E|discriminate].
  - rewrite !fmap_cons in F1, F2.
    apply Forall_cons in F1 as [[K1 V1] F1]. apply Forall_cons in F2 as [[K2 V2] F2].
    cbn [fst snd] in K1, V1, K2, V2.
    rewrite <- !join_canonical, !fmap_cons, !str_join_cons in Heq.
    destruct (split_at_sep 38%N _ _ _ _
                (pair_text_amp_free kv1 K1 V1) (pair_text_amp_free kv2 K2 V2)
                (canonical_tail_shape d1) (canonical_tail_shape d2) Heq)
      as [Hp Ht].
    destruct (pair_text_inj _ _ _ _ (proj2 K1) (proj2 K2) Hp) as [Hk Hv].
    rewrite !fmap_cons. f_equal; [by f_equal|].
    apply IH; [assumption..|].
    rewrite <- !join_canonical.
    destruct d1 as [|kv1' d1], d2 as [|kv2' d2]; [reflexivity|discriminate..|].
    rewrite !fmap_cons, !mjoin_cons_eq, <- !app_assoc in Ht.
    apply app_inv_head in Ht. by rewrite !fmap_cons, !str_join_cons.
Qed.

Lemma canonical_rendered (d1 : fields) :
  forall d2, rendered d1 = rendered d2 -> canonical_string d1 = canonical_string d2.
Proof.
  intros d2 H. rewrite <- !join_canonical. f_equal.
  unfold rendered in H.
  assert (Hm : forall d : fields,
             pair_text <$> d
             = (fun ks : str * str => ks.1 ++ lit "=" ++ ks.2)
                 <$> ((fun kv : str * atom => (kv.1, py_str kv.2)) <$> d)).
  { intros d. rewrite <- list_fmap_compose. reflexivity. }
  by rewrite !Hm, H.
Qed.

(** C3, as stated, fails: the two pairs [a -> "=a"] and ["a=" -> "a"]
    contribute the same text [a==a], so the mapping and its reordering
    have the same canonical string [a==a&a==a] and the same signature. *)
Lemma signature_reorder_collision :
  let d1 := [(lit "a", AStr (lit "=a")); (lit "a=", AStr (lit "a"))] in
  let d2 := [(lit "a=", AStr (lit "a")); (lit "a", AStr (lit "=a"))] in
  NoDup (dict_keys d1) /\ d2 = reverse d1 /\ d1 <> d2
  /\ _generate_signature sample_client d1
     = Ok (blit "eJ8ozu3l9htWoe9OEaZJGyccie2ybEx9eTLSjCo9mxU=")
  /\ _generate_signature sample_client d2
     = Ok (blit "eJ8ozu3l9htWoe9OEaZJGyccie2ybEx9eTLSjCo9mxU=").
Proof.
  cbv zeta. split; [|split; [|split; [|split]]].
  - compute_done.
  - reflexivity.
  - discriminate.
  - vm_compute. reflexivity.
  - vm_compute. reflexivity.
Qed.

(** C3, amended. Signing is deterministic: the signature is a function
    of the secret and of the sequence of keys and value texts, so equal
    mappings in equal order give equal signatures.  Changing one key, or
    the text of one value, changes the canonical string that is signed;
    and for mappings whose keys and values contain neither [&] nor [=],
    any change of the sequence of pairs (a reordering included) changes
    the canonical string. *)
Theorem signing_deterministic_separating :
  (forall (c c' : Client) (d d' : fields),
     API_SECRET c = API_SECRET c' -> rendered d = rendered d' ->
     _generate_signature c d = _generate_signature c' d')
  /\ (forall (pre post : fields) (k k' : str) (v : atom),
        k <> k' ->
        canonical_string (pre ++ (k, v) :: post)
        <> canonical_string (pre ++ (k', v) :: post))
  /\ (forall (pre post : fields) (k : str) (v v' : atom),
        py_str v <> py_str v' ->
        canonical_string (pre ++ (k, v) :: post)
        <> canonical_string (pre ++ (k, v') :: post))
  /\ (forall d d' : fields,
        fields_delimiter_free d -> fields_delimiter_free d' ->
        rendered d <> rendered d' ->
        canonical_string d <> canonical_string d').
Proof.
  split; [|split; [|split]].
  - intros c c' d d' Hs Hr. rewrite !generate_signature_canonical.
    unfold spec_signature. by rewrite Hs, (canonical_rendered d d' Hr).
  - intros pre post k k' v Hk Heq. rewrite !canonical_middle in Heq.
    apply app_inv_head, app_inv_tail in Heq.
    unfold pair_text in Heq. cbn [fst snd] in Heq.
    by apply app_inv_tail in Heq.
  - intros pre post k v v' Hv Heq. rewrite !canonical_middle in Heq.
    apply app_inv_head, app_inv_tail in Heq.
    unfold pair_text in Heq. cbn [fst snd] in Heq.
    by apply app_inv_head, app_inv_head in Heq.
  - intros d d' F F' Hr Heq. apply Hr. by apply canonical_inj.
Qed.

(** Instance of the amended C3: swapping [a=1] and [b=2], or editing a
    key or a value, changes the signed text. *)
Lemma signing_deterministic_separating_witness :
  let one := AStr (lit "1") in
  let two := AStr (lit "2") in
  _generate_signature sample_client [(lit "a", one)]
  = _generate_signature sample_client [(lit "a", AInt 1)]
  /\ canonical_string ([] ++ (lit "a", one) :: [(lit "b", two)])
     <> canonical_string ([] ++ (lit "c", one) :: [(lit "b", two)])
  /\ canonical_string ([(lit "a", one)] ++ (lit "b", two) :: [])
     <> canonical_string ([(lit "a", one)] ++ (lit "b", one) :: [])
  /\ canonical_string [(lit "a", one); (lit "b", two)]
     <> canonical_string [(lit "b", two); (lit "a", one)].
Proof.
  cbv zeta.
  destruct signing_deterministic_separating as (H1 & H2 & H3 & H4).
  split; [|split; [|split]].
  - apply H1; reflexivity.
  - apply H2. discriminate.
  - apply H3. discriminate.
  - apply H4; try discriminate;
      unfold fields_delimiter_free, delimiter_free; compute_done.
Defined.

(** ** Dicts *)

Section DictFacts.
Context {V : Type}.
Implicit Types (d o : list (str * V)) (k : str) (v : V).

Lemma dict_get_set_eq d k v : dict_get (dict_set d k v) k = Some v.
Proof.
  induction d as [|[k' v'] d IH]; cbn.
  - by rewrite decide_True.
  - destruct (decide (k' = k)) as [->|Hne]; cbn.
    + by rewrite decide_True.
    + by rewrite decide_False.
Qed.

Lemma dict_get_set_ne d k k' v :
  k <> k' -> dict_get (dict_set d k v) k' = dict_get d k'.
Proof.
  intros Hne. induction d as [|[k0 v0] d IH]; cbn.
  - by rewrite decide_False.
  - destruct (decide (k0 = k)) as [->|Hk]; cbn.
    + by rewrite !decide_False.
    + destruct (decide (k0 = k')); [reflexivity|exact IH].
Qed.

Lemma dict_get_None d k : dict_get d k = None <-> k ∉ dict_keys d.
Proof.
  unfold dict_keys. induction d as [|[k0 v0] d IH]; cbn.
  - split; [intros _; apply not_elem_of_nil|reflexivity].
  - rewrite not_elem_of_cons. destruct (decide (k0 = k)) as [->|Hk].
    + split; [discriminate|]. intros [? _]. congruence.
    + rewrite IH. split; [intros ?; split; congruence|by intros [_ ?]].
Qed.

Lemma dict_get_update_None d o k :
  dict_get o k = None -> dict_get (dict_update d o) k = dict_get d k.
Proof.
  unfold dict_update. revert d.
  induction o as [|[k0 v0] o IH]; intros d Ho; cbn in *; [reflexivity|].
  destruct (decide (k0 = k)) as [->|Hk]; [discriminate|].
  rewrite (IH _ Ho). by apply dict_get_set_ne.
Qed.

Lemma dict_get_update_Some d o k v :
  NoDup (dict_keys o) -> dict_get o k = Some v ->
  dict_get (dict_update d o) k = Some v.
Proof.
  unfold dict_update. revert d.
  induction o as [|[k0 v0] o IH]; intros d Hnd Ho; cbn in *; [discriminate|].
  apply NoDup_cons in Hnd as [Hk0 Hnd].
  destruct (decide (k0 = k)) as [->|Hk].
  - injection Ho as ->.
    change (dict_get (dict_update (dict_set d k v) o) k = Some v).
    rewrite dict_get_update_None; [apply dict_get_set_eq|by apply dict_get_None].
  - by apply IH.
Qed.

Lemma dict_set_keys_absent d k v :
  dict_get d k = None -> dict_set d k v = d ++ [(k, v)].
Proof.
  induction d as [|[k0 v0] d IH]; cbn; [reflexivity|].
  destruct (decide (k0 = k)); [discriminate|]. intros H. by rewrite IH.
Qed.

End DictFacts.

Lemma keywords_accepted_set (kw : kwargs) (k : str) (v : value) :
  k ∈ request_keywords -> keywords_accepted kw ->
  keywords_accepted (dict_set kw k v).
Proof.
  unfold keywords_accepted, dict_keys. intros Hk Hkw.
  induction kw as [|[k' v'] kw IH]; cbn.
  - constructor; [exact Hk|constructor].
  - apply Forall_cons in Hkw as [Hk' Hkw].
    destruct (decide (k' = k)); cbn; constructor; auto.
Qed.

Lemma keywords_accepted_update (kw other : kwargs) :
  keywords_accepted kw -> keywords_accepted other ->
  keywords_accepted (dict_update kw other).
Proof.
  unfold dict_update. revert kw.
  induction other as [|[k v] other IH]; intros kw Hkw Ho; cbn; [exact Hkw|].
  unfold keywords_accepted, dict_keys in Ho. cbn in Ho.
  apply Forall_cons in Ho as [Hk Ho].
  apply IH; [by apply keywords_accepted_set|exact Ho].
Qed.

Lemma keywords_accepted_get (kw : kwargs) (k : str) (v : value) :
  keywords_accepted kw -> dict_get kw k = Some v -> k ∈ request_keywords.
Proof.
  unfold keywords_accepted, dict_keys. intros Hkw.
  induction kw as [|[k' v'] kw IH]; cbn; [discriminate|].
  apply Forall_cons in Hkw as [Hk' Hkw].
  destruct (decide (k' = k)) as [<-|_]; [by intros _|by apply IH].
Qed.

(** ** Running the dispatcher *)

Lemma set_heap_id (w : world) : set_heap (heap w) w = w.
Proof. by destruct w. Qed.

Lemma bind_assoc {A B C} (m : M A) (f : A -> M B) (g : B -> M C) (w : world) :
  bind (bind m f) g w = bind m (fun a => bind (f a) g) w.
Proof. unfold bind. by destruct (m w) as [[a|e] w']. Qed.

Lemma bind_lift {A B} (r : res A) (a : A) (k : A -> M B) (w : world) :
  r = Ok a -> bind (lift r) k w = k a w.
Proof. by intros ->. Qed.

Lemma bind_setitem_in {B} (kw : kwargs) (name key : str) (a : atom)
    (l : loc) (d : fields) (k : unit -> M B) (w : world) :
  dict_get kw name = Some (VDict l) -> heap w !! l = Some d ->
  bind (setitem_in kw name key a) k w
  = k tt (set_heap (<[l := dict_set d key a]> (heap w)) w).
Proof.
  intros Hk Hl. unfold setitem_in, getitem, bind, deref, ret, modify.
  rewrite Hk. cbn. by rewrite Hl.
Qed.

Lemma normalize_run (kw : kwargs) (name : str) (w : world) :
  normalize kw name w =
  let r := resolve (heap w) (dict_get kw name) in
  match r with
  | Dangling => (Raise KeyError, w)
  | _ => (Ok (dict_set kw name (VDict (resolved_loc (heap w) r))),
          set_heap (resolved_heap (heap w) r) w)
  end.
Proof.
  unfold normalize, nonempty_dict, resolve, bind, deref, ret, alloc.
  destruct (dict_get kw name) as [[a|l]|]; cbn; try reflexivity.
  destruct (heap w !! l) as [[|kv d]|]; cbn; try reflexivity.
  by rewrite set_heap_id.
Qed.

Lemma resolved_loc_valid h v :
  resolve h v <> Dangling ->
  (resolved_loc h (resolve h v) < length (resolved_heap h (resolve h v)))%nat.
Proof.
  unfold resolve. destruct v as [[a|l]|]; cbn; try (intros _; rewrite length_app; cbn; lia).
  destruct (h !! l) as [[|kv d]|] eqn:E; cbn; intros H; try done.
  - rewrite length_app; cbn; lia.
  - by apply lookup_lt_Some in E.
Qed.

Lemma resolved_heap_length h r : (length h <= length (resolved_heap h r))%nat.
Proof. destruct r; cbn; rewrite ?length_app; lia. Qed.

Lemma resolved_heap_lookup h r l :
  (l < length h)%nat -> resolved_heap h r !! l = h !! l.
Proof. intros Hl. destruct r; cbn; try reflexivity. by apply lookup_app_l. Qed.

Lemma bind_normalize {B} (kw : kwargs) (name : str) (k : kwargs -> M B) (w : world) :
  bind (normalize kw name) k w =
  let r := resolve (heap w) (dict_get kw name) in
  match r with
  | Dangling => (Raise KeyError, w)
  | _ => k (dict_set kw name (VDict (resolved_loc (heap w) r)))
           (set_heap (resolved_heap (heap w) r) w)
  end.
Proof.
  unfold bind. rewrite normalize_run. cbv zeta.
  by destruct (resolve (heap w) (dict_get kw name)).
Qed.

Lemma bind_signature_tail {B} (r : res bytes) (k : bytes -> M B) (w : world) :
  bind (lift r) k w = match r with Ok s => k s w | Raise e => (Raise e, w) end.
Proof. by destruct r. Qed.

Lemma resolved_case {A} (r : resolved) (a b : A) :
  r <> Dangling -> match r with Dangling => a | _ => b end = b.
Proof. by destruct r. Qed.

Lemma resolved_dec (r : resolved) : r = Dangling \/ r <> Dangling.
Proof. destruct r; auto; right; discriminate. Qed.

(** The dispatcher, step by step, computes its closed form. *)
Lemma request_run method path type signed kw w :
  _request method path type signed kw w = request_closed method path type signed kw w.
Proof.
  unfold _request, request_closed.
  rewrite (bind_lift _ _ _ _ (create_api_uri_total path type)).
  change (bind (gets ?f) ?k w) with (k (f w) w). cbv beta zeta.
  lazymatch goal with
  | |- bind (normalize ?x _) _ _ = _ => change x with (merged (self w) kw)
  end.
  set (kw2 := merged (self w) kw).
  (* data = kwargs.get('data', None) ... *)
  rewrite bind_normalize. cbv zeta.
  pose proof (resolved_loc_valid (heap w) (dict_get kw2 (lit "data"))) as Hld.
  set (rd := resolve (heap w) (dict_get kw2 (lit "data"))) in *.
  set (ld := resolved_loc (heap w) rd) in *.
  set (h1 := resolved_heap (heap w) rd) in *.
  set (kw3 := dict_set kw2 (lit "data") (VDict ld)).
  destruct (resolved_dec rd) as [Hrd|Hrd]; [by rewrite Hrd|].
  specialize (Hld Hrd). rewrite !(resolved_case rd) by exact Hrd.
  (* params = kwargs.get('params', None) ... *)
  rewrite bind_normalize. cbv zeta.
  change (heap (set_heap h1 w)) with h1.
  change (set_heap ?h (set_heap _ w)) with (set_heap h w).
  set (rp := resolve h1 (dict_get kw3 (lit "params"))).
  set (lp := resolved_loc h1 rp).
  set (h2 := resolved_heap h1 rp).
  set (kw4 := dict_set kw3 (lit "params") (VDict lp)).
  destruct (resolved_dec rp) as [Hrp|Hrp]; [by rewrite Hrp|].
  rewrite !(resolved_case rp) by exact Hrp.
  assert (Hld2 : (ld < length h2)%nat)
    by exact (Nat.lt_le_trans _ _ _ Hld (resolved_heap_length h1 rp)).
  set (kw5 := dict_set kw4 (lit "headers") (VDict (length h2))).
  assert (Hdata : dict_get kw5 (lit "data") = Some (VDict ld)).
  { unfold kw5, kw4. rewrite !dict_get_set_ne by lit_ne. apply dict_get_set_eq. }
  destruct (h2 !! ld) as [d|] eqn:Hd;
    [|apply lookup_ge_None in Hd; exfalso;
      exact (Nat.lt_irrefl _ (Nat.lt_le_trans _ _ _ Hld2 Hd))].
  (* kwargs['headers'] = {}; kwargs['headers']['version'] = '2.4' *)
  change (bind (alloc ?d) ?k (set_heap h2 w))
    with (k (length h2) (set_heap (h2 ++ [[]]) w)).
  cbv beta. fold kw5.
  rewrite (bind_setitem_in kw5 _ _ _ (length h2) []);
    [|apply dict_get_set_eq|by apply list_lookup_middle].
  change (heap (set_heap ?h _)) with h.
  change (set_heap ?h (set_heap _ w)) with (set_heap h w).
  rewrite insert_app_r_alt by reflexivity. rewrite Nat.sub_diag.
  change (<[0%nat:=?x]> [_]) with [x].
  change (dict_set [] (lit "version") (AStr (lit "2.4"))) with [version_header].
  destruct signed; [|reflexivity].
  (* kwargs['data']['nonce'] = int(round(time.time())) *)
  rewrite bind_assoc.
  change (bind time_time ?k ?w') with (k (clock w') w'). cbv beta.
  change (clock (set_heap _ w)) with (clock w).
  rewrite bind_assoc.
  rewrite (bind_setitem_in kw5 _ _ _ ld d);
    [|apply Hdata|cbn [heap set_heap]; by rewrite lookup_app_l].
  change (heap (set_heap ?h _)) with h.
  change (set_heap ?h (set_heap _ w)) with (set_heap h w).
  rewrite insert_app_l by exact Hld2.
  (* kwargs['headers']['key'] = self.API_KEY *)
  rewrite bind_assoc.
  change (bind (gets ?f) ?k ?w') with (k (f w') w'). cbv beta.
  change (self (set_heap _ w)) with (self w).
  rewrite bind_assoc.
  rewrite (bind_setitem_in kw5 _ _ _ (length h2) [version_header]);
    [|apply dict_get_set_eq
     |cbn [heap set_heap]; by apply list_lookup_middle; rewrite length_insert].
  change (heap (set_heap ?h _)) with h.
  change (set_heap ?h (set_heap _ w)) with (set_heap h w).
  rewrite insert_app_r_alt by (by rewrite length_insert).
  rewrite length_insert, Nat.sub_diag.
  change (<[0%nat:=?x]> [_]) with [x].
  (* kwargs['headers']['sign'] = self._generate_signature(kwargs['data']) *)
  rewrite bind_assoc.
  change (bind (gets ?f) ?k ?w') with (k (f w') w'). cbv beta.
  change (self (set_heap _ w)) with (self w).
  rewrite bind_assoc.
  unfold getitem at 1. rewrite Hdata.
  change (bind (ret ?a) ?k ?w') with (k a w'). cbv beta.
  rewrite bind_assoc.
  unfold bind at 1, deref at 1.
  change (heap (set_heap ?h _)) with h.
  rewrite lookup_app_l by (by rewrite length_insert).
  rewrite list_lookup_insert_eq by exact Hld2.
  cbn [default].
  rewrite bind_assoc, bind_signature_tail.
  destruct (_generate_signature _ _) as [sign|e]; [|reflexivity].
  rewrite (bind_setitem_in kw5 _ _ _ (length h2)
             (dict_set [version_header] (lit "key") (AStr (API_KEY (self w)))));
    [|apply dict_get_set_eq
     |cbn [heap set_heap]; by apply list_lookup_middle; rewrite length_insert].
  change (heap (set_heap ?h _)) with h.
  change (set_heap ?h (set_heap _ w)) with (set_heap h w).
  rewrite insert_app_r_alt by (by rewrite length_insert).
  rewrite length_insert, Nat.sub_diag.
  reflexivity.
Qed.

Lemma send_run method uri kw w :
  send method uri kw w =
  if bool_decide (method ∈ session_verbs) then
    if bool_decide (keywords_accepted kw) then
      let c := {| c_method := method; c_uri := uri; c_kwargs := kw; c_heap := heap w |} in
      match inbox w with
      | [] => (Raise ConnectionError, set_net [] (outbox w ++ [c]) w)
      | r :: rest => (res_bind r _handle_response, set_net rest (outbox w ++ [c]) w)
      end
    else (Raise TypeError, w)
  else (Raise AttributeError, w).
Proof.
  unfold send, session_call, bind, lift, raise.
  destruct (bool_decide (method ∈ session_verbs)); [|reflexivity].
  destruct (bool_decide (keywords_accepted kw)); [|reflexivity].
  destruct (inbox w) as [|[r|e] rest]; reflexivity.
Qed.

Lemma not_snoc {A} (l : list A) (x : A) : l <> l ++ [x].
Proof.
  intros H. apply (f_equal length) in H. rewrite length_app in H. cbn in H. lia.
Qed.

(** A call goes out of [send] exactly when the method is an HTTP verb
    and the session takes every keyword. *)
Lemma send_issues method uri kw w c :
  issues (send method uri kw) w c <->
  method ∈ session_verbs /\ keywords_accepted kw /\
  c = {| c_method := method; c_uri := uri; c_kwargs := kw; c_heap := heap w |}.
Proof.
  unfold issues. rewrite send_run. case_bool_decide as Hm.
  - case_bool_decide as Hk.
    + cbv zeta. split.
      * intros H. split; [exact Hm|]. split; [exact Hk|].
        destruct (inbox w); cbn in H; apply app_inv_head in H; by injection H.
      * intros (_ & _ & ->). by destruct (inbox w).
    + split; [|by intros (_ & ? & _)]. cbn. intros H. by apply not_snoc in H.
  - split; [|by intros [? _]]. cbn. intros H. by apply not_snoc in H.
Qed.

Lemma send_frame method uri kw w :
  self (send method uri kw w).2 = self w
  /\ heap (send method uri kw w).2 = heap w
  /\ clock (send method uri kw w).2 = clock w.
Proof.
  rewrite send_run. case_bool_decide; [|done]. case_bool_decide; [|done].
  by destruct (inbox w).
Qed.

Lemma resolve_Kept h v l :
  resolve h v = Kept l <-> v = Some (VDict l) /\ exists x xs, h !! l = Some (x :: xs).
Proof.
  unfold resolve. destruct v as [[a|l']|].
  - split; [discriminate|]. by intros [? _].
  - destruct (h !! l') as [[|x xs]|] eqn:E.
    + split; [discriminate|]. intros [[= ->] (x & xs & H)]. congruence.
    + split.
      * intros [= ->]. eauto.
      * by intros [[= ->] _].
    + split; [discriminate|]. intros [[= ->] (x & xs & H)]. congruence.
  - split; [discriminate|]. by intros [? _].
Qed.

Lemma resolved_content h v :
  resolve h v <> Dangling ->
  resolved_heap h (resolve h v) !! resolved_loc h (resolve h v)
  = Some (content h (resolve h v)).
Proof.
  intros Hd. destruct (resolve h v) as [l| |] eqn:E; [| |done].
  - apply resolve_Kept in E as (_ & x & xs & E). cbn. by rewrite E.
  - cbn. by apply list_lookup_middle.
Qed.

Lemma lookup_snoc_nonempty (h : list fields) l x xs :
  (h ++ [[]]) !! l = Some (x :: xs) <-> h !! l = Some (x :: xs).
Proof.
  split.
  - intros H. destruct (decide (l < length h)%nat) as [Hl|Hl].
    + by rewrite lookup_app_l in H.
    + rewrite lookup_app_r in H by lia.
      destruct (l - length h)%nat; cbn in H; discriminate.
  - intros H. rewrite lookup_app_l; [exact H|by apply lookup_lt_Some in H].
Qed.

Lemma content_grow h r v :
  content (resolved_heap h r) (resolve (resolved_heap h r) v)
  = content h (resolve h v).
Proof.
  destruct r; cbn [resolved_heap]; try reflexivity.
  destruct (resolve (h ++ [[]]) v) as [l| |] eqn:E.
  - apply resolve_Kept in E as (Hv & x & xs & E).
    pose proof (proj1 (lookup_snoc_nonempty _ _ _ _) E) as E'.
    rewrite (proj2 (resolve_Kept h v l))
      by (split; [exact Hv|exists x, xs; exact E']).
    unfold content, resolved_heap. by rewrite E, E'.
  - destruct (resolve h v) as [l| |] eqn:E'; try reflexivity.
    apply resolve_Kept in E' as (Hv & x & xs & E').
    rewrite (proj2 (resolve_Kept (h ++ [[]]) v l)) in E; [discriminate|].
    split; [exact Hv|]. exists x, xs. by apply lookup_snoc_nonempty.
  - destruct (resolve h v) as [l| |] eqn:E'; try reflexivity.
    apply resolve_Kept in E' as (Hv & x & xs & E').
    rewrite (proj2 (resolve_Kept (h ++ [[]]) v l)) in E; [discriminate|].
    split; [exact Hv|]. exists x, xs. by apply lookup_snoc_nonempty.
Qed.

(** Anatomy of the call a dispatch sends. *)
Lemma request_call method path type signed kw w c :
  issues (_request method path type signed kw) w c ->
  let body := if signed
              then dict_set (dict_before (lit "data") kw w) (lit "nonce")
                            (AInt (py_round (clock w)))
              else dict_before (lit "data") kw w in
  method ∈ session_verbs
  /\ c_method c = method
  /\ c_uri c = uri_of path type
  /\ (forall k, k ∉ [lit "data"; lit "params"; lit "headers"] ->
         dict_get (c_kwargs c) k = dict_get (merged (self w) kw) k)
  /\ call_dict c (lit "data") = Some body
  /\ (if signed
      then exists sign, _generate_signature (self w) body = Ok sign
                        /\ call_dict c (lit "headers")
                           = Some [version_header; key_header (self w); sign_header sign]
      else call_dict c (lit "headers") = Some [version_header]
           /\ call_dict c (lit "params") = Some (dict_before (lit "params") kw w)
           /\ forall l, (l < length (heap w))%nat -> c_heap c !! l = heap w !! l)
  /\ (forall l, (l < length (heap w))%nat ->
         dict_get (c_kwargs c) (lit "data") <> Some (VDict l) ->
         c_heap c !! l = heap w !! l)
  /\ (exists lh, dict_get (c_kwargs c) (lit "headers") = Some (VDict lh)
                 /\ (length (heap w) <= lh)%nat).
Proof.
  unfold issues. rewrite request_run. unfold request_closed, dict_before.
  set (kw2 := merged (self w) kw).
  pose proof (resolved_loc_valid (heap w) (dict_get kw2 (lit "data"))) as Hld.
  pose proof (resolved_content (heap w) (dict_get kw2 (lit "data"))) as Hcd.
  set (rd := resolve (heap w) (dict_get kw2 (lit "data"))) in *.
  set (ld := resolved_loc (heap w) rd) in *.
  set (h1 := resolved_heap (heap w) rd) in *.
  set (kw3 := dict_set kw2 (lit "data") (VDict ld)).
  pose proof (resolved_loc_valid h1 (dict_get kw3 (lit "params"))) as Hlp.
  pose proof (resolved_content h1 (dict_get kw3 (lit "params"))) as Hcp.
  pose proof (content_grow (heap w) rd (dict_get kw3 (lit "params"))) as Hgp.
  fold h1 in Hgp.
  set (rp := resolve h1 (dict_get kw3 (lit "params"))) in *.
  set (lp := resolved_loc h1 rp) in *.
  set (h2 := resolved_heap h1 rp) in *.
  set (kw4 := dict_set kw3 (lit "params") (VDict lp)).
  set (kw5 := dict_set kw4 (lit "headers") (VDict (length h2))).
  destruct (resolved_dec rd) as [Hrd|Hrd].
  { rewrite Hrd. cbn. intros H. by apply not_snoc in H. }
  destruct (resolved_dec rp) as [Hrp|Hrp].
  { rewrite Hrp. destruct rd; cbn; intros H; by apply not_snoc in H. }
  specialize (Hld Hrd). specialize (Hcd Hrd). specialize (Hlp Hrp). specialize (Hcp Hrp).
  rewrite !(resolved_case rd) by exact Hrd. rewrite !(resolved_case rp) by exact Hrp.
  assert (Hh1 : forall l, (l < length (heap w))%nat -> h2 !! l = heap w !! l).
  { intros l Hl. unfold h2, h1.
    rewrite resolved_heap_lookup; [by apply resolved_heap_lookup|].
    pose proof (resolved_heap_length (heap w) rd). lia. }
  assert (Hd2 : h2 !! ld = Some (content (heap w) rd)).
  { unfold h2. by rewrite resolved_heap_lookup. }
  assert (Hld2 : (ld < length h2)%nat) by (by apply lookup_lt_Some in Hd2).
  assert (Hlh : (length (heap w) <= length h2)%nat).
  { exact (Nat.le_trans _ _ _ (resolved_heap_length (heap w) rd)
                                (resolved_heap_length h1 rp)). }
  assert (Hk5 : forall k, k ∉ [lit "data"; lit "params"; lit "headers"] ->
                          dict_get kw5 k = dict_get kw2 k).
  { intros k Hk. rewrite !not_elem_of_cons in Hk. destruct Hk as (? & ? & ? & _).
    unfold kw5, kw4, kw3. by rewrite !dict_get_set_ne by congruence. }
  assert (Hdata : dict_get kw5 (lit "data") = Some (VDict ld)).
  { unfold kw5, kw4. rewrite !dict_get_set_ne by lit_ne. apply dict_get_set_eq. }
  assert (Hparams : dict_get kw5 (lit "params") = Some (VDict lp)).
  { unfold kw5. rewrite dict_get_set_ne by lit_ne. apply dict_get_set_eq. }
  assert (Hheaders : dict_get kw5 (lit "headers") = Some (VDict (length h2))).
  { apply dict_get_set_eq. }
  rewrite Hd2. change (default [] (Some ?x)) with x.
  destruct signed.
  - destruct (_generate_signature _ _) as [sign|e] eqn:Hsig;
      [|cbn; intros H; by apply not_snoc in H].
    intros H.
    lazymatch type of H with
    | outbox (send ?m ?u ?k ?w').2 = _ =>
        apply (proj1 (send_issues m u k w' c)) in H as (Hm & _ & ->)
    end.
    cbn [heap set_heap].
    unfold call_dict. cbn [c_method c_uri c_kwargs c_heap].
    rewrite Hdata, Hheaders.
    split; [exact Hm|]. split; [reflexivity|]. split; [reflexivity|].
    split; [exact Hk5|]. split; [|split; [|split]]; [| | |by eauto].
    + rewrite lookup_app_l by (by rewrite length_insert).
      by apply list_lookup_insert_eq.
    + exists sign. split; [reflexivity|].
      apply list_lookup_middle. by rewrite length_insert.
    + intros l Hl Hne.
      assert (l <> ld) by congruence.
      rewrite lookup_app_l by (rewrite length_insert; apply lookup_lt_is_Some;
                               rewrite Hh1 by exact Hl; by apply lookup_lt_is_Some).
      rewrite list_lookup_insert_ne by congruence. by apply Hh1.
  - intros H.
    lazymatch type of H with
    | outbox (send ?m ?u ?k ?w').2 = _ =>
        apply (proj1 (send_issues m u k w' c)) in H as (Hm & _ & ->)
    end.
    cbn [heap set_heap].
    unfold call_dict. cbn [c_method c_uri c_kwargs c_heap].
    rewrite Hdata, Hheaders, Hparams.
    split; [exact Hm|]. split; [reflexivity|]. split; [reflexivity|].
    assert (Hfr : forall l, (l < length (heap w))%nat ->
                            (h2 ++ [[version_header]]) !! l = heap w !! l).
    { intros l Hl. rewrite lookup_app_l; [by apply Hh1|].
      apply lookup_lt_is_Some. rewrite Hh1 by exact Hl. by apply lookup_lt_is_Some. }
    split; [exact Hk5|]. split; [|split; [split; [|split]|split]];
      [| | |exact Hfr|by intros l Hl _; apply Hfr|by eauto].
    + by rewrite lookup_app_l.
    + by apply list_lookup_middle.
    + rewrite lookup_app_l by exact Hlp. rewrite Hcp, Hgp.
      unfold kw3. by rewrite dict_get_set_ne by lit_ne.
Qed.

(** ** UTF-8 encodability of what gets signed *)

Lemma utf8_char_total (c : N) : scalar_value c -> exists b, utf8_char c = Ok b.
Proof.
  intros [Hs Hmax]. unfold utf8_char. cbv zeta.
  destruct (Z.ltb_spec (Z.of_N c) 0x80); [eauto|].
  destruct (Z.ltb_spec (Z.of_N c) 0x800); [eauto|].
  destruct (Z.ltb_spec (Z.of_N c) 0x10000).
  - destruct (Z.leb_spec 0xD800 (Z.of_N c)), (Z.ltb_spec (Z.of_N c) 0xE000);
      cbn [andb]; eauto. lia.
  - destruct (Z.ltb_spec (Z.of_N c) 0x110000); [eauto|lia].
Qed.

Lemma encode_utf8_total (s : str) : encodable s -> exists b, encode_utf8 s = Ok b.
Proof.
  induction 1 as [|c s Hc _ [bs IH]]; [by exists []|].
  destruct (utf8_char_total c Hc) as [b Hb].
  exists (b ++ bs). cbn. by rewrite Hb, IH.
Qed.

Lemma narrow_encodable (s : str) : narrow s -> encodable s.
Proof.
  intros H. eapply Forall_impl; [exact H|].
  intros c Hc. unfold scalar_value. cbv beta in Hc. lia.
Qed.

Lemma dec_digits_narrow (fuel : nat) :
  forall n acc, narrow acc -> narrow (dec_digits fuel n acc).
Proof.
  induction fuel as [|fuel IH]; intros n acc Hacc; [exact Hacc|].
  cbn [dec_digits].
  assert (Hd : narrow (digit_char (n mod 10) :: acc)).
  { constructor; [|exact Hacc]. unfold digit_char.
    pose proof (Z.mod_pos_bound n 10 ltac:(lia)). lia. }
  destruct (n <? 10); [exact Hd|by apply IH].
Qed.

Lemma str_of_int_narrow (z : Z) : narrow (str_of_int z).
Proof.
  unfold str_of_int. destruct (z <? 0).
  - constructor; [lia|]. apply dec_digits_narrow. constructor.
  - apply dec_digits_narrow. constructor.
Qed.

Lemma Z_of_byte_bound (b : byte) : 0 <= Z_of_byte b < 256.
Proof.
  unfold Z_of_byte. pose proof (Byte.to_N_bounded b). lia.
Qed.

Lemma hex_char_narrow (x : Z) : (hex_char x < 256)%N.
Proof.
  unfold hex_char.
  assert (H : Forall (fun c => (c < 256)%N) (lit "0123456789abcdef")) by compute_done.
  destruct (nth_in_or_default (Z.to_nat (Z.land x 15)) (lit "0123456789abcdef") 0%N)
    as [Hin| ->]; [|lia].
  rewrite Forall_forall in H. apply H. by apply list_elem_of_In.
Qed.

Lemma bytes_repr_char_narrow (q : Z) (b : byte) : narrow (bytes_repr_char q b).
Proof.
  unfold bytes_repr_char. cbv zeta. pose proof (Z_of_byte_bound b).
  repeat match goal with
         | |- context [if ?c then _ else _] => destruct c
         end;
    repeat constructor; try lia; try apply hex_char_narrow.
Qed.

Lemma bytes_repr_narrow (bs : bytes) : narrow (bytes_repr bs).
Proof.
  unfold bytes_repr. cbv zeta.
  match goal with
  | |- context [if ?c then 34 else 39] => set (q := if c then 34 else 39)
  end.
  assert (Hq : (Z.to_N q < 256)%N)
    by (unfold q; match goal with |- context [if ?c then _ else _] => destruct c end; lia).
  apply Forall_app. split; [repeat constructor; lia|].
  apply Forall_app. split; [repeat constructor; exact Hq|].
  apply Forall_app. split; [|repeat constructor; exact Hq].
  clearbody q. clear Hq. induction bs as [|b bs IH]; [constructor|].
  cbn. apply Forall_app. split; [apply bytes_repr_char_narrow|exact IH].
Qed.

Lemma py_str_encodable (a : atom) : atom_encodable a -> encodable (py_str a).
Proof.
  destruct a as [|[]|z|s|b]; cbn; intros H; try exact H;
    apply narrow_encodable; try (repeat constructor; lia).
  - apply str_of_int_narrow.
  - apply bytes_repr_narrow.
Qed.

Lemma canonical_encodable (d : fields) :
  fields_encodable d -> encodable (canonical_string d).
Proof.
  induction 1 as [|[k v] d [Hk Hv] Hd IH]; [constructor|].
  assert (Hp : encodable (pair_text (k, v))).
  { unfold pair_text. apply Forall_app. split; [exact Hk|].
    apply Forall_app. split; [repeat constructor; unfold scalar_value; lia|].
    by apply py_str_encodable. }
  destruct d as [|kv d]; [exact Hp|].
  change (encodable (pair_text (k, v) ++ lit "&" ++ canonical_string (kv :: d))).
  apply Forall_app. split; [exact Hp|].
  apply Forall_app. split; [repeat constructor; unfold scalar_value; lia|exact IH].
Qed.

Lemma generate_signature_total (c : Client) (d : fields) :
  encodable (API_SECRET c) -> fields_encodable d ->
  exists sign, _generate_signature c d = Ok sign.
Proof.
  intros Hs Hd. rewrite generate_signature_canonical. unfold spec_signature.
  destruct (encode_utf8_total _ Hs) as [key ->].
  destruct (encode_utf8_total _ (canonical_encodable d Hd)) as [msg ->].
  cbn. eauto.
Qed.

Lemma dict_set_encodable (d : fields) (k : str) (a : atom) :
  fields_encodable d -> encodable k -> atom_encodable a ->
  fields_encodable (dict_set d k a).
Proof.
  intros Hd Hk Ha. induction Hd as [|[k' v'] d [Hk' Hv'] Hd IH]; cbn.
  - by repeat constructor.
  - destruct (decide (k' = k)); constructor; auto.
Qed.

(** ** When a dispatch reaches the network *)

Lemma resolve_valid (h : list fields) (v : option value) :
  ref_valid h v -> resolve h v <> Dangling.
Proof.
  intros Hv. unfold resolve. destruct v as [[a|l]|]; try discriminate.
  destruct (h !! l) as [[|x xs]|] eqn:E; try discriminate.
  apply lookup_ge_None in E. specialize (Hv l eq_refl). lia.
Qed.

Lemma merged_accepted (c : Client) (kw : kwargs) :
  params_accepted c -> keywords_accepted kw -> keywords_accepted (merged c kw).
Proof.
  unfold params_accepted, merged. intros Hc Hkw.
  assert (Ht : keywords_accepted (dict_set kw (lit "timeout") (VAtom (AInt 10))))
    by (apply keywords_accepted_set; [compute_done|exact Hkw]).
  destruct (_requests_params c) as [[|e r]|]; try exact Ht.
  by apply keywords_accepted_update.
Qed.

Lemma request_sends method path type signed kw w :
  method ∈ session_verbs ->
  keywords_accepted (merged (self w) kw) ->
  ref_valid (heap w) (dict_get (merged (self w) kw) (lit "data")) ->
  ref_valid (heap w) (dict_get (merged (self w) kw) (lit "params")) ->
  (signed = true ->
   exists sign,
     _generate_signature (self w)
       (dict_set (dict_before (lit "data") kw w) (lit "nonce")
                 (AInt (py_round (clock w)))) = Ok sign) ->
  exists c, issues (_request method path type signed kw) w c.
Proof.
  intros Hm Hkw Hvd Hvp Hs. unfold issues. rewrite request_run.
  unfold request_closed, dict_before in *.
  set (kw2 := merged (self w) kw) in *.
  pose proof (resolve_valid (heap w) (dict_get kw2 (lit "data")) Hvd) as Hrd.
  pose proof (resolved_content (heap w) (dict_get kw2 (lit "data")) Hrd) as Hcd.
  pose proof (resolved_loc_valid (heap w) (dict_get kw2 (lit "data")) Hrd) as Hld.
  set (rd := resolve (heap w) (dict_get kw2 (lit "data"))) in *.
  set (ld := resolved_loc (heap w) rd) in *.
  set (h1 := resolved_heap (heap w) rd) in *.
  set (kw3 := dict_set kw2 (lit "data") (VDict ld)).
  assert (Hrp : resolve h1 (dict_get kw3 (lit "params")) <> Dangling).
  { apply resolve_valid. intros l Hl. unfold kw3 in Hl.
    rewrite dict_get_set_ne in Hl by lit_ne. apply Hvp in Hl.
    pose proof (resolved_heap_length (heap w) rd). unfold h1. lia. }
  set (rp := resolve h1 (dict_get kw3 (lit "params"))) in *.
  rewrite !(resolved_case rd) by exact Hrd. rewrite !(resolved_case rp) by exact Hrp.
  rewrite (resolved_heap_lookup h1 rp ld Hld), Hcd.
  change (default [] (Some ?x)) with x.
  assert (Hsend : forall u k w', keywords_accepted k -> outbox w' = outbox w ->
            exists c, outbox (send method u k w').2 = outbox w ++ [c]).
  { intros u k w' Hk Ho. eexists. rewrite <- Ho.
    apply (proj2 (send_issues method u k w' _)).
    split; [exact Hm|]. split; [exact Hk|reflexivity]. }
  assert (Hk5 : forall l1 l2 l3,
            keywords_accepted
              (dict_set (dict_set (dict_set kw2 (lit "data") (VDict l1))
                                  (lit "params") (VDict l2))
                        (lit "headers") (VDict l3))).
  { intros l1 l2 l3. repeat (apply keywords_accepted_set; [compute_done|]).
    exact Hkw. }
  destruct signed.
  - destruct (Hs eq_refl) as [sign ->]. apply Hsend; [apply Hk5|reflexivity].
  - apply Hsend; [apply Hk5|reflexivity].
Qed.

(** ** Endpoint methods *)

(** Each endpoint method allocates its fields and dispatches according
    to the table. *)
Lemma invoke_run (e : endpoint) (w : world) :
  invoke e w =
  let p := endpoint_plan e in
  _request (p_method p) (p_path p) (p_type p) (p_signed p)
    [(lit "data", VDict (length (heap w)))]
    (set_heap (heap w ++ [p_fields p]) w).
Proof.
  destruct e; cbn [invoke endpoint_plan]; cbv zeta;
    cbn [p_method p_path p_type p_signed p_fields];
    unfold get_ticker, get_depth, get_user_balance, create_buy_order,
      create_sell_order, _create_order, get_history_orders, cancel_order,
      get_open_orders, _get, _post.
  all: change (bind (alloc ?d) ?k w) with (k (length (heap w)) (set_heap (heap w ++ [d]) w)).
  all: cbv beta.
  all: try reflexivity.
  - rewrite (bind_lift _ (lit "ticker/" ++ py_str symbol)); [reflexivity|].
    unfold str_percent. cbn. by rewrite app_nil_r.
  - rewrite (bind_lift _ (lit "orderbook/" ++ py_str symbol)); [reflexivity|].
    unfold str_percent. cbn. by rewrite app_nil_r.
Qed.

Lemma merged_get (c : Client) (kw : kwargs) (name : str) :
  name <> lit "timeout" -> no_override c name ->
  dict_get (merged c kw) name = dict_get kw name.
Proof.
  intros Hn Ho. unfold merged, no_override in *.
  destruct (_requests_params c) as [[|e r]|].
  - by apply dict_get_set_ne.
  - rewrite dict_get_update_None by exact Ho. by apply dict_get_set_ne.
  - by apply dict_get_set_ne.
Qed.

Lemma dict_get_update_inv {V} (d o : list (str * V)) (k : str) (v : V) :
  dict_get (dict_update d o) k = Some v -> (k, v) ∈ o \/ dict_get d k = Some v.
Proof.
  unfold dict_update. revert d.
  induction o as [|[k0 v0] o IH]; intros d H; cbn in *; [by right|].
  apply IH in H as [H|H]; [left; by right|].
  destruct (decide (k0 = k)) as [->|Hne].
  - rewrite dict_get_set_eq in H. injection H as ->. left. left.
  - rewrite dict_get_set_ne in H by exact Hne. by right.
Qed.

Lemma merged_get_inv (c : Client) (kw : kwargs) (name : str) (v : value) :
  name <> lit "timeout" ->
  dict_get (merged c kw) name = Some v ->
  (exists rp, _requests_params c = Some rp /\ (name, v) ∈ rp)
  \/ dict_get kw name = Some v.
Proof.
  intros Hn H. unfold merged in H.
  destruct (_requests_params c) as [[|e r]|] eqn:E.
  - right. by rewrite dict_get_set_ne in H.
  - apply dict_get_update_inv in H as [H|H]; [left; eauto|].
    right. by rewrite dict_get_set_ne in H.
  - right. by rewrite dict_get_set_ne in H.
Qed.

Lemma dict_before_lookup name kw w l d :
  dict_get (merged (self w) kw) name = Some (VDict l) ->
  heap w !! l = Some d -> dict_before name kw w = d.
Proof.
  intros Hg Hl. unfold dict_before, resolve. rewrite Hg, Hl.
  destruct d; [reflexivity|]. cbn. by rewrite Hl.
Qed.

Lemma dict_before_absent name kw w :
  dict_get (merged (self w) kw) name = None -> dict_before name kw w = [].
Proof. intros Hg. unfold dict_before, resolve. by rewrite Hg. Qed.

Lemma plan_method_verb (e : endpoint) : p_method (endpoint_plan e) ∈ session_verbs.
Proof. destruct e; compute_done. Qed.

Section Invoke.
Context (e : endpoint) (w : world).
Let p := endpoint_plan e.
Let kw : kwargs := [(lit "data", VDict (length (heap w)))].
Let w1 := set_heap (heap w ++ [p_fields p]) w.

Lemma invoke_data_before :
  no_override (self w) (lit "data") -> dict_before (lit "data") kw w1 = p_fields p.
Proof.
  intros Ho. apply (dict_before_lookup _ _ _ (length (heap w))).
  - rewrite merged_get; [reflexivity|lit_ne|exact Ho].
  - by apply list_lookup_middle.
Qed.

Lemma invoke_params_before :
  no_override (self w) (lit "params") -> dict_before (lit "params") kw w1 = [].
Proof.
  intros Ho. apply dict_before_absent.
  rewrite merged_get; [reflexivity|lit_ne|exact Ho].
Qed.

(** The call an endpoint method sends. *)
Lemma invoke_call (c : call) :
  no_override (self w) (lit "data") ->
  issues (invoke e) w c ->
  let body := if p_signed p then with_nonce (p_fields p) w else p_fields p in
  c_method c = p_method p
  /\ c_uri c = uri_of (p_path p) (p_type p)
  /\ call_dict c (lit "data") = Some body
  /\ (if p_signed p
      then exists sign, _generate_signature (self w) body = Ok sign
                        /\ call_dict c (lit "headers")
                           = Some [version_header; key_header (self w); sign_header sign]
      else call_dict c (lit "headers") = Some [version_header]
           /\ (no_override (self w) (lit "params") ->
               call_dict c (lit "params") = Some [])).
Proof.
  intros Ho H. unfold issues in H. rewrite invoke_run in H.
  apply (request_call _ _ _ _ kw w1 c) in H. cbv zeta in H.
  destruct H as (_ & Hm & Hu & _ & Hd & Hh & _).
  fold p in Hm, Hu, Hd, Hh |- *.
  rewrite invoke_data_before in Hd, Hh by exact Ho.
  split; [exact Hm|]. split; [exact Hu|]. split; [exact Hd|].
  destruct (p_signed p); [exact Hh|].
  destruct Hh as (Hh & Hp & _). split; [exact Hh|].
  intros Hop. by rewrite invoke_params_before in Hp.
Qed.

(** When an endpoint method reaches the network. *)
Lemma invoke_sends :
  params_accepted (self w) ->
  no_override (self w) (lit "data") ->
  override_valid w (lit "params") ->
  (p_signed p = true ->
   encodable (API_SECRET (self w)) /\ fields_encodable (p_fields p)) ->
  exists c, issues (invoke e) w c.
Proof.
  intros Hacc Ho Hv Hs. unfold issues. rewrite invoke_run.
  apply (request_sends _ _ _ _ kw w1).
  - apply plan_method_verb.
  - apply merged_accepted; [exact Hacc|].
    constructor; [compute_done|constructor].
  - unfold ref_valid. intros l Hl. rewrite merged_get in Hl; [|lit_ne|exact Ho].
    injection Hl as <-. cbn. rewrite length_app. cbn. lia.
  - unfold ref_valid. intros l Hl.
    assert (Hne : lit "params" <> lit "timeout") by lit_ne.
    destruct (merged_get_inv _ _ _ _ Hne Hl) as [(rp & Hrp & Hin)|Hl'];
      [|discriminate].
    pose proof (Hv rp l Hrp Hin). cbn. rewrite length_app. lia.
  - intros Hsg. destruct (Hs Hsg) as [Hsec Hf].
    rewrite invoke_data_before by exact Ho.
    apply generate_signature_total; [exact Hsec|].
    apply dict_set_encodable; [exact Hf| |exact I].
    apply narrow_encodable. compute_done.
Qed.

End Invoke.

(** ** The nonce *)

Lemma py_round_near (x : Q) : (Qabs (inject_Z (py_round x) - x) <= 1 # 2)%Q.
Proof.
  unfold py_round. cbv zeta.
  pose proof (Qfloor_le x) as Hlo. pose proof (Qlt_floor x) as Hhi.
  rewrite inject_Z_plus in Hhi. change (inject_Z 1) with 1%Q in Hhi.
  apply Qabs_Qle_condition.
  destruct (Qcompare_spec (x - inject_Z (Qfloor x)) (1 # 2)) as [He|Hl|Hg].
  - destruct (Z.even (Qfloor x)); rewrite ?inject_Z_plus;
      change (inject_Z 1) with 1%Q; lra.
  - lra.
  - rewrite inject_Z_plus. change (inject_Z 1) with 1%Q. lra.
Qed.

Lemma py_round_integer (n : Z) : py_round (inject_Z n) = n.
Proof.
  unfold py_round. rewrite Qfloor_Z. cbv zeta.
  destruct (Qcompare_spec (inject_Z n - inject_Z n) (1 # 2)) as [He|Hl|Hg].
  - exfalso. lra.
  - reflexivity.
  - exfalso. lra.
Qed.

(** ** Request dispatcher *)

(** C5. Whenever a dispatch sends its HTTP call: with [signed] true, the
    [data] dict of the call holds [nonce], the clock reading rounded to
    the nearest second (within half a second of the clock, and equal to
    it when the clock stands on a whole second), the headers hold [key],
    the API key, and [sign], the signature of that nonce-inclusive
    [data] dict; with [signed] false, the [data] dict is the one the
    call resolved to, untouched, the headers hold the version only, and
    no dict that existed before the call is modified. *)
Theorem signed_dispatch_injects
    (method path : str) (type : API_TYPE) (signed : bool) (kw : kwargs)
    (w : world) (c : call) :
  issues (_request method path type signed kw) w c ->
  if signed then
    exists body sign,
      call_dict c (lit "data") = Some body
      /\ dict_get body (lit "nonce") = Some (AInt (py_round (clock w)))
      /\ (Qabs (inject_Z (py_round (clock w)) - clock w) <= 1 # 2)%Q
      /\ (forall n, clock w = inject_Z n -> py_round (clock w) = n)
      /\ call_dict c (lit "headers")
         = Some [version_header; key_header (self w); sign_header sign]
      /\ _generate_signature (self w) body = Ok sign
  else
    call_dict c (lit "data") = Some (dict_before (lit "data") kw w)
    /\ call_dict c (lit "headers") = Some [version_header]
    /\ forall l, (l < length (heap w))%nat -> c_heap c !! l = heap w !! l.
Proof.
  intros H. apply request_call in H. cbv zeta in H.
  destruct H as (_ & _ & _ & _ & Hd & Hh & _).
  destruct signed.
  - destruct Hh as (sign & Hs & Hh).
    eexists _, sign. split; [exact Hd|]. split; [apply dict_get_set_eq|].
    split; [apply py_round_near|]. split; [|by split].
    intros n ->. apply py_round_integer.
  - destruct Hh as (Hh & _ & Hf). by repeat split.
Qed.

(** Instance of C5: a signed POST and an unsigned GET from the sample
    world. *)
Lemma signed_dispatch_injects_witness :
  let kw := [(lit "data", VDict 0)] in
  let w := set_heap [[(lit "page", AInt 1)]] sample_world in
  (exists c, issues (_request (lit "post") (lit "history") ORDER true kw) w c
             /\ exists body sign,
                  call_dict c (lit "data") = Some body
                  /\ dict_get body (lit "nonce") = Some (AInt 1700000000)
                  /\ _generate_signature (self w) body = Ok sign)
  /\ (exists c, issues (_request (lit "get") (lit "ticker/BTCUSD") QUOTE false kw) w c
                /\ call_dict c (lit "headers") = Some [version_header]).
Proof.
  cbv zeta. split.
  - eexists. split; [vm_compute; reflexivity|].
    match goal with
    | |- exists body sign, call_dict ?c _ = _ /\ _ =>
        pose proof (signed_dispatch_injects (lit "post") (lit "history") ORDER true
                      [(lit "data", VDict 0)]
                      (set_heap [[(lit "page", AInt 1)]] sample_world) c
                      ltac:(vm_compute; reflexivity)) as H
    end.
    cbv beta iota in H. destruct H as (body & sign & H1 & H2 & _ & _ & _ & H6).
    exists body, sign. split; [exact H1|]. split; [exact H2|exact H6].
  - eexists. split; [vm_compute; reflexivity|].
    match goal with
    | |- call_dict ?c _ = _ =>
        pose proof (signed_dispatch_injects (lit "get") (lit "ticker/BTCUSD") QUOTE false
                      [(lit "data", VDict 0)]
                      (set_heap [[(lit "page", AInt 1)]] sample_world) c
                      ltac:(vm_compute; reflexivity)) as H
    end.
    cbv beta iota in H. exact (proj1 (proj2 H)).
Defined.

(** C10. Whenever a dispatch sends its HTTP call, the header dict of
    the call is a dict created by the dispatcher (it did not exist
    before the call, so neither the caller's [headers] keyword nor a
    [headers] entry of the global request parameters is used), and it
    is exactly [{version: '2.4'}] for an unsigned call and
    [{version: '2.4', key: API key, sign: signature of the data dict}]
    for a signed one.  The other global request parameters take
    effect: an entry other than [data], [params], [headers] reaches the
    call as given, and the timeout is 10 unless they give one. *)
Theorem dispatch_headers_exact
    (method path : str) (type : API_TYPE) (signed : bool) (kw : kwargs)
    (w : world) (c : call) :
  issues (_request method path type signed kw) w c ->
  (exists lh, dict_get (c_kwargs c) (lit "headers") = Some (VDict lh)
              /\ (length (heap w) <= lh)%nat)
  /\ (if signed
      then exists body sign,
             call_dict c (lit "data") = Some body
             /\ _generate_signature (self w) body = Ok sign
             /\ call_dict c (lit "headers")
                = Some [version_header; key_header (self w); sign_header sign]
      else call_dict c (lit "headers") = Some [version_header])
  /\ (forall rp k v,
        _requests_params (self w) = Some rp -> NoDup (dict_keys rp) ->
        k ∉ [lit "data"; lit "params"; lit "headers"] ->
        dict_get rp k = Some v -> dict_get (c_kwargs c) k = Some v)
  /\ (no_override (self w) (lit "timeout") ->
      dict_get (c_kwargs c) (lit "timeout") = Some (VAtom (AInt 10))).
Proof.
  intros H. apply request_call in H. cbv zeta in H.
  destruct H as (_ & _ & _ & Hk & Hd & Hh & _ & Hlh).
  split; [exact Hlh|]. split; [|split].
  - destruct signed; [|exact (proj1 Hh)].
    destruct Hh as (sign & Hs & Hh). eauto.
  - intros rp k v Hrp Hnd Hk' Hv. rewrite (Hk k Hk'). unfold merged. rewrite Hrp.
    destruct rp as [|e r]; [discriminate|]. by apply dict_get_update_Some.
  - intros Ho. rewrite Hk by compute_done.
    unfold merged, no_override in *.
    destruct (_requests_params (self w)) as [[|e r]|].
    + apply dict_get_set_eq.
    + rewrite dict_get_update_None by exact Ho. apply dict_get_set_eq.
    + apply dict_get_set_eq.
Qed.

(** Instance of C10: caller and global parameters both try to set
    headers; the global parameters also set the timeout and a proxy. *)
Lemma dispatch_headers_exact_witness :
  let rp := [(lit "headers", VDict 0); (lit "timeout", VAtom (AInt 3));
             (lit "verify", VAtom (ABool false))] in
  let w := {| self := {| API_KEY := lit "KEY"; API_SECRET := lit "SECRET";
                         _session := 0%nat; _requests_params := Some rp |};
              heap := [[(lit "sign", AStr (lit "forged"))]];
              clock := 1700000000 # 1; inbox := []; outbox := [] |} in
  let kw := [(lit "headers", VDict 0); (lit "timeout", VAtom (AInt 99))] in
  exists c, issues (_request (lit "get") (lit "ticker/BTCUSD") QUOTE false kw) w c
            /\ call_dict c (lit "headers") = Some [version_header]
            /\ dict_get (c_kwargs c) (lit "timeout") = Some (VAtom (AInt 3))
            /\ dict_get (c_kwargs c) (lit "verify") = Some (VAtom (ABool false)).
Proof.
  intros rp w kw. eexists. split; [vm_compute; reflexivity|].
  match goal with
  | |- call_dict ?c _ = _ /\ _ =>
      pose proof (dispatch_headers_exact (lit "get") (lit "ticker/BTCUSD") QUOTE false
                    kw w c ltac:(vm_compute; reflexivity)) as H
  end.
  cbv beta iota in H. destruct H as (_ & Hh & Hrp & _).
  split; [exact Hh|]. split.
  - apply (Hrp _ _ _ eq_refl); [compute_done|compute_done|reflexivity].
  - apply (Hrp _ _ _ eq_refl); [compute_done|compute_done|reflexivity].
Defined.

(** ** Clients without global request parameters, printable values *)

Lemma no_global_params_override (c : Client) (name : str) :
  no_global_params c -> no_override c name.
Proof. unfold no_override. by intros [-> | ->]. Qed.

Lemma no_global_params_accepted (c : Client) :
  no_global_params c -> params_accepted c.
Proof. unfold params_accepted. intros [-> | ->]; [exact I|constructor]. Qed.

Lemma no_override_valid (w : world) (name : str) :
  no_override (self w) name -> override_valid w name.
Proof.
  unfold no_override, override_valid. intros Ho rp l Hrp Hin.
  rewrite Hrp in Ho. apply dict_get_None in Ho. exfalso. apply Ho.
  unfold dict_keys. by apply (list_elem_of_fmap_2 fst) in Hin.
Qed.

Lemma atom_printable_encodable (a : atom) : atom_printable a -> atom_encodable a.
Proof. by destruct a. Qed.

Lemma atom_sendable_encodable (a : atom) : atom_sendable a -> atom_encodable a.
Proof. intros [_ H]. by apply atom_printable_encodable. Qed.

(** ** End to end: [create_buy_order] *)




(** ** End to end: [get_depth] *)




(** ** In-place mutation of the caller's [data] *)

(** C8, as stated, fails: an empty dict supplied as [data] is falsy, so
    the dispatcher replaces it by a fresh dict and puts the nonce
    there; the caller's dict is unchanged after the signed call. *)
Lemma empty_data_not_mutated :
  let kw := [(lit "data", VDict 0)] in
  dict_get kw (lit "data") = Some (VDict 0)
  /\ heap empty_data_world !! 0%nat = Some []
  /\ heap (_request (lit "post") (lit "list") USER true kw empty_data_world).2 !! 0%nat
     = Some []
  /\ ~ nonce_added (lit "post") (lit "list") USER kw empty_data_world 0.
Proof.
  cbv zeta. split; [reflexivity|]. split; [reflexivity|].
  split; [vm_compute; reflexivity|].
  intros [_ H]. apply H. vm_compute. reflexivity.
Qed.

(** The heap after a signed dispatch that kept the caller's dict. *)
Lemma request_signed_heap method path type kw w l d :
  dict_get (merged (self w) kw) (lit "data") = Some (VDict l) ->
  heap w !! l = Some d -> d <> [] ->
  ref_valid (heap w) (dict_get (merged (self w) kw) (lit "params")) ->
  heap (_request method path type true kw w).2 !! l = Some (with_nonce d w).
Proof.
  intros Hg Hl Hd Hv. rewrite request_run. unfold request_closed.
  set (kw2 := merged (self w) kw) in *.
  assert (Hrd : resolve (heap w) (dict_get kw2 (lit "data")) = Kept l).
  { apply resolve_Kept. split; [exact Hg|]. destruct d as [|x xs]; [done|eauto]. }
  rewrite Hrd. cbn [resolved_loc resolved_heap].
  set (kw3 := dict_set kw2 (lit "data") (VDict l)).
  assert (Hrp : resolve (heap w) (dict_get kw3 (lit "params")) <> Dangling).
  { apply resolve_valid. unfold kw3. by rewrite dict_get_set_ne by lit_ne. }
  set (rp := resolve (heap w) (dict_get kw3 (lit "params"))) in *.
  rewrite !(resolved_case rp) by exact Hrp.
  assert (Hl2 : (l < length (heap w))%nat) by (by apply lookup_lt_Some in Hl).
  rewrite (resolved_heap_lookup (heap w) rp l Hl2), Hl.
  change (default [] (Some ?x)) with x.
  assert (Hlen : (l < length (resolved_heap (heap w) rp))%nat).
  { pose proof (resolved_heap_length (heap w) rp). lia. }
  assert (Hfin : forall hdrs,
            (<[l:=with_nonce d w]> (resolved_heap (heap w) rp) ++ [hdrs]) !! l
            = Some (with_nonce d w)).
  { intros hdrs. rewrite lookup_app_l by (by rewrite length_insert).
    by apply list_lookup_insert_eq. }
  fold (with_nonce d w).
  destruct (_generate_signature (self w) (with_nonce d w)) as [sign|e].
  - match goal with
    | |- heap (send ?m ?u ?k ?w').2 !! _ = _ =>
        rewrite (proj1 (proj2 (send_frame m u k w')))
    end.
    apply Hfin.
  - apply Hfin.
Qed.

(** C8, amended. When the caller of a signed dispatch supplies as
    [data] a non-empty dict, and the global request parameters carry no
    [data] entry, the dispatcher writes the nonce into that very dict:
    after the call it holds its former fields with [nonce] set to the
    call-time clock in seconds, whether or not the call went out; if it
    held no nonce before, it has changed.  (An empty dict is left
    alone.) *)
Theorem signed_dispatch_mutates_data
    (method path : str) (type : API_TYPE) (kw : kwargs) (w : world)
    (l : loc) (d : fields) :
  dict_get kw (lit "data") = Some (VDict l) ->
  heap w !! l = Some d -> d <> [] ->
  no_override (self w) (lit "data") ->
  ref_valid (heap w) (dict_get (merged (self w) kw) (lit "params")) ->
  heap (_request method path type true kw w).2 !! l = Some (with_nonce d w)
  /\ (dict_get d (lit "nonce") = None -> nonce_added method path type kw w l).
Proof.
  intros Hk Hl Hd Ho Hv.
  assert (H : heap (_request method path type true kw w).2 !! l
              = Some (with_nonce d w)).
  { apply request_signed_heap; try assumption.
    rewrite merged_get; [exact Hk|lit_ne|exact Ho]. }
  split; [exact H|]. intros Hn. unfold nonce_added. cbv zeta. rewrite H. split.
  - eexists. split; [reflexivity|]. apply dict_get_set_eq.
  - rewrite Hl. intros [= Heq]. unfold with_nonce in Heq.
    apply (f_equal (fun x => dict_get x (lit "nonce"))) in Heq.
    rewrite dict_get_set_eq, Hn in Heq. discriminate Heq.
Qed.

(** Instance of the amended C8: the caller's dict [{page: 1}]. *)
Lemma signed_dispatch_mutates_data_witness :
  let w := set_heap [[(lit "page", AInt 1)]] sample_world in
  let kw := [(lit "data", VDict 0)] in
  heap (_request (lit "post") (lit "history") ORDER true kw w).2 !! 0%nat
  = Some [(lit "page", AInt 1); (lit "nonce", AInt 1700000000)]
  /\ nonce_added (lit "post") (lit "history") ORDER kw w 0.
Proof.
  intros w kw.
  destruct (signed_dispatch_mutates_data (lit "post") (lit "history") ORDER kw w 0
              [(lit "page", AInt 1)]) as [H1 H2].
  - reflexivity.
  - reflexivity.
  - discriminate.
  - exact I.
  - intros l Hl. vm_compute in Hl. discriminate Hl.
  - split; [exact H1|]. apply H2. reflexivity.
Defined.

(** ** Credentials *)

Lemma request_self method path type signed kw w :
  self (_request method path type signed kw w).2 = self w.
Proof.
  rewrite request_run. unfold request_closed. cbv zeta.
  repeat match goal with
         | |- context [match ?x with _ => _ end] =>
             lazymatch x with
             | resolve _ _ => destruct x
             | _generate_signature _ _ => destruct x
             end
         | |- context [if ?b then _ else _] => is_var b; destruct b
         end;
    try reflexivity;
    match goal with
    | |- self (send ?m ?u ?k ?w').2 = _ => exact (proj1 (send_frame m u k w'))
    end.
Qed.

Lemma invoke_self (e : endpoint) (w : world) : self (invoke e w).2 = self w.
Proof. rewrite invoke_run. cbv zeta. by rewrite request_self. Qed.

Lemma invoke_all_self (es : list endpoint) (w : world) :
  self (invoke_all es w) = self w.
Proof.
  revert w. induction es as [|e es IH]; intros w; [reflexivity|].
  cbn. rewrite IH. apply invoke_self.
Qed.

Lemma headers_agree (c : Client) (s1 s2 : bytes) :
  dict_keys [version_header; key_header c; sign_header s1]
  = dict_keys [version_header; key_header c; sign_header s2]
  /\ forall k, k <> lit "sign" ->
       dict_get [version_header; key_header c; sign_header s1] k
       = dict_get [version_header; key_header c; sign_header s2] k.
Proof.
  split; [reflexivity|]. intros k Hk.
  cbn [dict_get version_header key_header sign_header].
  destruct (decide (lit "version" = k)); [reflexivity|].
  destruct (decide (lit "key" = k)); [reflexivity|].
  destruct (decide (lit "sign" = k)); [congruence|reflexivity].
Qed.

Lemma lookup_snoc_ne {A} (h : list A) (x y : A) (l : nat) :
  l <> length h -> (h ++ [x]) !! l = (h ++ [y]) !! l.
Proof.
  intros Hl. destruct (decide (l < length h)%nat).
  - by rewrite !lookup_app_l.
  - rewrite !lookup_app_r by lia.
    destruct (l - length h)%nat eqn:E; [lia|reflexivity].
Qed.

(** The headers of the call a dispatch sends are the specified ones. *)
Lemma request_headers method path type signed kw w c :
  issues (_request method path type signed kw) w c ->
  headers_as_specified signed (self w) c.
Proof.
  intros H. apply request_call in H. cbv zeta in H.
  destruct H as (_ & _ & _ & _ & Hd & Hh & _).
  unfold headers_as_specified. destruct signed; [|exact (proj1 Hh)].
  destruct Hh as (sign & Hs & Hh). eexists _, sign.
  split; [exact Hd|]. split; [exact Hh|].
  rewrite <- generate_signature_canonical. exact Hs.
Qed.

(** The call a dispatch sends depends on the secret through the value
    of the [sign] header only. *)
Lemma request_secret_independent method path type signed kw w s1 s2 c1 c2 :
  issues (_request method path type signed kw) (with_secret s1 w) c1 ->
  issues (_request method path type signed kw) (with_secret s2 w) c2 ->
  agree_but_sign c1 c2.
Proof.
  unfold issues. rewrite !request_run. unfold request_closed.
  cbn [with_secret set_self self heap clock outbox API_KEY _requests_params].
  change (merged _ kw) with (merged (self w) kw).
  set (kw2 := merged (self w) kw).
  pose proof (resolved_loc_valid (heap w) (dict_get kw2 (lit "data"))) as Hld.
  set (rd := resolve (heap w) (dict_get kw2 (lit "data"))) in *.
  set (ld := resolved_loc (heap w) rd) in *.
  set (h1 := resolved_heap (heap w) rd) in *.
  set (kw3 := dict_set kw2 (lit "data") (VDict ld)).
  pose proof (resolved_loc_valid h1 (dict_get kw3 (lit "params"))) as Hlp.
  set (rp := resolve h1 (dict_get kw3 (lit "params"))) in *.
  set (lp := resolved_loc h1 rp) in *.
  set (h2 := resolved_heap h1 rp) in *.
  set (kw4 := dict_set kw3 (lit "params") (VDict lp)).
  set (kw5 := dict_set kw4 (lit "headers") (VDict (length h2))).
  destruct (resolved_dec rd) as [Hrd|Hrd].
  { rewrite Hrd. cbn. intros H. by apply not_snoc in H. }
  destruct (resolved_dec rp) as [Hrp|Hrp].
  { rewrite Hrp. destruct rd; cbn; intros H; by apply not_snoc in H. }
  specialize (Hld Hrd). specialize (Hlp Hrp).
  rewrite !(resolved_case rd) by exact Hrd. rewrite !(resolved_case rp) by exact Hrp.
  assert (Hld2 : (ld < length h2)%nat)
    by exact (Nat.lt_le_trans _ _ _ Hld (resolved_heap_length h1 rp)).
  assert (Hdata : dict_get kw5 (lit "data") = Some (VDict ld)).
  { unfold kw5, kw4. rewrite !dict_get_set_ne by lit_ne. apply dict_get_set_eq. }
  assert (Hparams : dict_get kw5 (lit "params") = Some (VDict lp)).
  { unfold kw5. rewrite dict_get_set_ne by lit_ne. apply dict_get_set_eq. }
  assert (Hheaders : dict_get kw5 (lit "headers") = Some (VDict (length h2))).
  { apply dict_get_set_eq. }
  destruct signed.
  - set (body := dict_set (default [] (h2 !! ld)) (lit "nonce")
                          (AInt (py_round (clock w)))).
    set (h3 := <[ld:=body]> h2).
    assert (Hlen : length h3 = length h2) by apply length_insert.
    destruct (_generate_signature _ body) as [sg1|e1];
      [|cbn; intros H; by apply not_snoc in H].
    destruct (_generate_signature _ body) as [sg2|e2];
      [|intros _; cbn; intros H; by apply not_snoc in H].
    intros H1 H2.
    lazymatch type of H1 with
    | outbox (send ?m ?u ?k ?w').2 = _ =>
        apply (proj1 (send_issues m u k w' c1)) in H1 as (_ & _ & ->)
    end.
    lazymatch type of H2 with
    | outbox (send ?m ?u ?k ?w').2 = _ =>
        apply (proj1 (send_issues m u k w' c2)) in H2 as (_ & _ & ->)
    end.
    unfold agree_but_sign, call_dict. cbn [c_method c_uri c_kwargs c_heap heap set_heap].
    rewrite Hdata, Hparams, Hheaders.
    split; [reflexivity|]. split; [reflexivity|]. split; [reflexivity|].
    split; [by rewrite !lookup_app_l by (rewrite Hlen; exact Hld2)|].
    split; [by rewrite !lookup_app_l by (rewrite Hlen; exact Hlp)|].
    split; [intros l Hl; apply lookup_snoc_ne; congruence|].
    eexists _, _.
    split; [by apply list_lookup_middle|]. split; [by apply list_lookup_middle|].
    apply (headers_agree (self w)).
  - intros H1 H2.
    lazymatch type of H1 with
    | outbox (send ?m ?u ?k ?w').2 = _ =>
        apply (proj1 (send_issues m u k w' c1)) in H1 as (_ & _ & ->)
    end.
    lazymatch type of H2 with
    | outbox (send ?m ?u ?k ?w').2 = _ =>
        apply (proj1 (send_issues m u k w' c2)) in H2 as (_ & _ & ->)
    end.
    unfold agree_but_sign, call_dict. cbn [c_method c_uri c_kwargs c_heap heap set_heap].
    rewrite Hheaders.
    do 6 (split; [reflexivity|]).
    eexists _, _.
    split; [by apply list_lookup_middle|]. split; [by apply list_lookup_middle|].
    by split.
Qed.

(** C9. The credentials of a client never change: after construction
    with a key and a secret, and after any sequence of endpoint calls
    (whatever they return or raise), the instance holds that key and
    that secret; no dispatch writes any attribute of the instance.  The
    secret is used only as the signing key: in the call that a dispatch
    or an endpoint method sends, the [sign] header of a signed call is
    the Base64 HMAC-SHA-256, keyed by the secret, of the canonical
    string of the body sent, next to the version and the API key, and
    an unsigned call carries the version header alone.  And the secret
    is not transmitted otherwise: the call is the same for any two
    secrets (method, URL, keyword arguments, body, query string, every
    dict referred to, every header) except for the value of the [sign]
    header. *)
Theorem credentials_fixed_secret_private :
  (forall (k s : str) (rp : option kwargs) (w0 : world) (es : list endpoint),
     let w := invoke_all es (__init__ k s rp w0).2 in
     API_KEY (self w) = k /\ API_SECRET (self w) = s)
  /\ (forall method path type signed kw w,
        self (_request method path type signed kw w).2 = self w)
  /\ (forall method path type signed kw w c,
        issues (_request method path type signed kw) w c ->
        headers_as_specified signed (self w) c)
  /\ (forall e w c,
        issues (invoke e) w c ->
        headers_as_specified (p_signed (endpoint_plan e)) (self w) c)
  /\ (forall method path type signed kw w s1 s2 c1 c2,
        issues (_request method path type signed kw) (with_secret s1 w) c1 ->
        issues (_request method path type signed kw) (with_secret s2 w) c2 ->
        agree_but_sign c1 c2)
  /\ (forall e w s1 s2 c1 c2,
        issues (invoke e) (with_secret s1 w) c1 ->
        issues (invoke e) (with_secret s2 w) c2 ->
        agree_but_sign c1 c2).
Proof.
  split; [|split; [|split; [|split; [|split]]]].
  - intros k s rp w0 es w. unfold w. rewrite invoke_all_self. by split.
  - apply request_self.
  - apply request_headers.
  - intros e w c. unfold issues. rewrite invoke_run. cbv zeta.
    apply (request_headers _ _ _ _ _
             (set_heap (heap w ++ [p_fields (endpoint_plan e)]) w) c).
  - apply request_secret_independent.
  - intros e w s1 s2 c1 c2. unfold issues. rewrite !invoke_run. cbv zeta.
    apply (request_secret_independent _ _ _ _ _
             (set_heap (heap w ++ [p_fields (endpoint_plan e)]) w) s1 s2 c1 c2).
Qed.

(** Instance of C9: the same buy order under two secrets. *)
Lemma credentials_fixed_secret_private_witness :
  let e := BuyOrder (AStr (lit "BTCUSD")) (AStr (lit "100.0")) (AStr (lit "1.0")) in
  let w1 := with_secret (lit "SECRET") sample_world in
  let w2 := with_secret (lit "OTHER") sample_world in
  exists c1 c2,
    issues (invoke e) w1 c1
    /\ issues (invoke e) w2 c2
    /\ headers_as_specified true (self w1) c1
    /\ headers_as_specified true (self w2) c2
    /\ agree_but_sign c1 c2
    /\ call_dict c1 (lit "headers") <> call_dict c2 (lit "headers").
Proof.
  intros e w1 w2. eexists _, _.
  split; [vm_compute; reflexivity|]. split; [vm_compute; reflexivity|].
  pose proof credentials_fixed_secret_private as (_ & _ & _ & Hh & _ & Ha).
  split; [|split; [|split]].
  - apply (Hh e w1). vm_compute. reflexivity.
  - apply (Hh e w2). vm_compute. reflexivity.
  - apply (Ha e sample_world (lit "SECRET") (lit "OTHER"));
      vm_compute; reflexivity.
  - vm_compute. discriminate.
Defined.


(** * Further properties *)

(** ** The other endpoint methods *)

(** A signed endpoint method sends its fields followed by the nonce. *)
Lemma signed_endpoint_sends (e : endpoint) (w : world) :
  p_signed (endpoint_plan e) = true ->
  no_global_params (self w) ->
  encodable (API_SECRET (self w)) ->
  fields_encodable (p_fields (endpoint_plan e)) ->
  signed_post (invoke e) w
    (uri_of (p_path (endpoint_plan e)) (p_type (endpoint_plan e)))
    (with_nonce (p_fields (endpoint_plan e)) w).
Proof.
  intros Hsg Hg Hsec Hf.
  pose proof (no_global_params_override _ (lit "data") Hg) as Ho.
  destruct (invoke_sends e w (no_global_params_accepted _ Hg) Ho
              (no_override_valid w _ (no_global_params_override _ _ Hg)))
    as [c Hc]; [by intros _|].
  pose proof (invoke_call e w c Ho Hc) as H. cbv zeta in H. rewrite Hsg in H.
  destruct H as (Hm & Hu & Hd & sign & Hsig & Hh).
  exists c, sign. split; [exact Hc|]. split.
  { rewrite Hm. destruct e; try discriminate Hsg; reflexivity. }
  split; [exact Hu|]. split; [exact Hd|]. split; [exact Hh|].
  rewrite <- generate_signature_canonical. exact Hsig.
Qed.

(** X1. [create_sell_order] is [create_buy_order] with [side=2]. *)
Theorem create_sell_order_sends (symbol price amount : atom) (w : world) :
  no_global_params (self w) ->
  header_text (API_KEY (self w)) ->
  encodable (API_SECRET (self w)) ->
  atom_sendable symbol -> atom_sendable price -> atom_sendable amount ->
  signed_post (create_sell_order symbol price amount) w
    (lit "https://api.sfex.net/order/create")
    [(lit "symbol", symbol); (lit "side", AInt 2); (lit "type", AInt 1);
     (lit "price", price); (lit "amount", amount);
     (lit "nonce", AInt (py_round (clock w)))].
Proof.
  intros Hg _ Hsec Hs Hp Ha.
  apply (signed_endpoint_sends (SellOrder symbol price amount) w);
    [reflexivity|assumption..|(repeat constructor; cbn [fst snd];
     try (apply atom_sendable_encodable; assumption);
     try (apply narrow_encodable; compute_done))].
Qed.

Lemma create_sell_order_sends_witness :
  signed_post
    (create_sell_order (AStr (lit "BTCUSD")) (AStr (lit "100.0")) (AInt 3))
    sample_world (lit "https://api.sfex.net/order/create")
    [(lit "symbol", AStr (lit "BTCUSD")); (lit "side", AInt 2);
     (lit "type", AInt 1); (lit "price", AStr (lit "100.0"));
     (lit "amount", AInt 3); (lit "nonce", AInt 1700000000)].
Proof.
  apply (create_sell_order_sends _ _ _ sample_world).
  - left. reflexivity.
  - compute_done.
  - apply narrow_encodable; compute_done.
  - split; [discriminate|]. apply narrow_encodable; compute_done.
  - split; [discriminate|]. apply narrow_encodable; compute_done.
  - split; [discriminate|]. reflexivity.
Defined.

(** X2. [get_user_balance] sends a signed POST to
    [{order_host}/balance/list] whose body is the nonce alone, so that
    the text signed is [nonce=<ts>]. *)
Theorem get_user_balance_sends (w : world) :
  no_global_params (self w) ->
  header_text (API_KEY (self w)) ->
  encodable (API_SECRET (self w)) ->
  signed_post get_user_balance w (lit "https://api.sfex.net/balance/list")
    [(lit "nonce", AInt (py_round (clock w)))]
  /\ canonical_string [(lit "nonce", AInt (py_round (clock w)))]
     = lit "nonce=" ++ str_of_int (py_round (clock w)).
Proof.
  intros Hg _ Hsec. split; [|reflexivity].
  apply (signed_endpoint_sends UserBalance w);
    [reflexivity|assumption..|(repeat constructor; cbn [fst snd];
     try (apply atom_sendable_encodable; assumption);
     try (apply narrow_encodable; compute_done))].
Qed.

Lemma get_user_balance_sends_witness :
  signed_post get_user_balance sample_world (lit "https://api.sfex.net/balance/list")
    [(lit "nonce", AInt 1700000000)].
Proof.
  apply (get_user_balance_sends sample_world).
  - left. reflexivity.
  - compute_done.
  - apply narrow_encodable; compute_done.
Defined.

(** X3. [get_history_orders] sends a signed POST to
    [{order_host}/order/history] with body [page, size, nonce]. *)
Theorem get_history_orders_sends (page size : atom) (w : world) :
  no_global_params (self w) ->
  header_text (API_KEY (self w)) ->
  encodable (API_SECRET (self w)) ->
  atom_sendable page -> atom_sendable size ->
  signed_post (get_history_orders page size) w
    (lit "https://api.sfex.net/order/history")
    [(lit "page", page); (lit "size", size);
     (lit "nonce", AInt (py_round (clock w)))].
Proof.
  intros Hg _ Hsec Hp Hs.
  apply (signed_endpoint_sends (HistoryOrders page size) w);
    [reflexivity|assumption..|(repeat constructor; cbn [fst snd];
     try (apply atom_sendable_encodable; assumption);
     try (apply narrow_encodable; compute_done))].
Qed.

Lemma get_history_orders_sends_witness :
  signed_post (get_history_orders (AInt 1) (AInt 20)) sample_world
    (lit "https://api.sfex.net/order/history")
    [(lit "page", AInt 1); (lit "size", AInt 20); (lit "nonce", AInt 1700000000)].
Proof.
  apply (get_history_orders_sends _ _ sample_world).
  - left. reflexivity.
  - compute_done.
  - apply narrow_encodable; compute_done.
  - split; [discriminate|]. reflexivity.
  - split; [discriminate|]. reflexivity.
Defined.

(** X4. [cancel_order] sends a signed POST to
    [{order_host}/order/remove] with body [symbol, order_id, nonce]. *)
Theorem cancel_order_sends (symbol order_id : atom) (w : world) :
  no_global_params (self w) ->
  header_text (API_KEY (self w)) ->
  encodable (API_SECRET (self w)) ->
  atom_sendable symbol -> atom_sendable order_id ->
  signed_post (cancel_order symbol order_id) w
    (lit "https://api.sfex.net/order/remove")
    [(lit "symbol", symbol); (lit "order_id", order_id);
     (lit "nonce", AInt (py_round (clock w)))].
Proof.
  intros Hg _ Hsec Hs Hi.
  apply (signed_endpoint_sends (CancelOrder symbol order_id) w);
    [reflexivity|assumption..|(repeat constructor; cbn [fst snd];
     try (apply atom_sendable_encodable; assumption);
     try (apply narrow_encodable; compute_done))].
Qed.

Lemma cancel_order_sends_witness :
  signed_post (cancel_order (AStr (lit "BTCUSD")) (AInt 4711)) sample_world
    (lit "https://api.sfex.net/order/remove")
    [(lit "symbol", AStr (lit "BTCUSD")); (lit "order_id", AInt 4711);
     (lit "nonce", AInt 1700000000)].
Proof.
  apply (cancel_order_sends _ _ sample_world).
  - left. reflexivity.
  - compute_done.
  - apply narrow_encodable; compute_done.
  - split; [discriminate|]. apply narrow_encodable; compute_done.
  - split; [discriminate|]. reflexivity.
Defined.

(** X5. [get_open_orders] sends a signed POST to
    [{order_host}/order/active] with body [symbol, page, size, nonce]. *)
Theorem get_open_orders_sends (symbol page size : atom) (w : world) :
  no_global_params (self w) ->
  header_text (API_KEY (self w)) ->
  encodable (API_SECRET (self w)) ->
  atom_sendable symbol -> atom_sendable page -> atom_sendable size ->
  signed_post (get_open_orders symbol page size) w
    (lit "https://api.sfex.net/order/active")
    [(lit "symbol", symbol); (lit "page", page); (lit "size", size);
     (lit "nonce", AInt (py_round (clock w)))].
Proof.
  intros Hg _ Hsec Hs Hp Hz.
  apply (signed_endpoint_sends (OpenOrders symbol page size) w);
    [reflexivity|assumption..|(repeat constructor; cbn [fst snd];
     try (apply atom_sendable_encodable; assumption);
     try (apply narrow_encodable; compute_done))].
Qed.

Lemma get_open_orders_sends_witness :
  signed_post (get_open_orders (AStr (lit "BTCUSD")) (AInt 1) (AInt 20)) sample_world
    (lit "https://api.sfex.net/order/active")
    [(lit "symbol", AStr (lit "BTCUSD")); (lit "page", AInt 1);
     (lit "size", AInt 20); (lit "nonce", AInt 1700000000)].
Proof.
  apply (get_open_orders_sends _ _ _ sample_world).
  - left. reflexivity.
  - compute_done.
  - apply narrow_encodable; compute_done.
  - split; [discriminate|]. apply narrow_encodable; compute_done.
  - split; [discriminate|]. reflexivity.
  - split; [discriminate|]. reflexivity.
Defined.

(** X6. [get_ticker] sends an unsigned GET to
    [{quote_host}/ticker/{symbol}] with an empty body, an empty query
    string and the version header only, whatever the secret is. *)
Theorem get_ticker_sends (symbol : atom) (w : world) :
  no_global_params (self w) ->
  atom_printable symbol ->
  exists c, issues (get_ticker symbol) w c
            /\ c_method c = lit "get"
            /\ c_uri c = lit "https://q.sfex.net/v1/ticker/" ++ py_str symbol
            /\ call_dict c (lit "data") = Some []
            /\ call_dict c (lit "params") = Some []
            /\ call_dict c (lit "headers") = Some [version_header].
Proof.
  intros Hg _.
  pose proof (no_global_params_override _ (lit "data") Hg) as Hd.
  pose proof (no_global_params_override _ (lit "params") Hg) as Hp.
  destruct (invoke_sends (Ticker symbol) w (no_global_params_accepted _ Hg) Hd
              (no_override_valid w _ Hp)) as [c Hc];
    [discriminate|].
  pose proof (invoke_call (Ticker symbol) w c Hd Hc) as H.
  cbv zeta in H. cbn [endpoint_plan p_signed p_fields p_method p_path p_type] in H.
  destruct H as (Hm & Hu & Hdata & Hh & Hparams).
  exists c. split; [exact Hc|]. split; [exact Hm|]. split; [exact Hu|].
  split; [exact Hdata|]. split; [by apply Hparams|exact Hh].
Qed.

Lemma get_ticker_sends_witness :
  exists c, issues (get_ticker (AStr (lit "BTCUSD"))) sample_world c
            /\ c_method c = lit "get"
            /\ c_uri c = lit "https://q.sfex.net/v1/ticker/BTCUSD"
            /\ call_dict c (lit "data") = Some []
            /\ call_dict c (lit "params") = Some []
            /\ call_dict c (lit "headers") = Some [version_header].
Proof.
  apply (get_ticker_sends (AStr (lit "BTCUSD")) sample_world).
  - left. reflexivity.
  - apply narrow_encodable; compute_done.
Defined.

(** ** One dispatch, at most one call *)

Lemma send_outcome method uri kw w :
  method ∈ session_verbs -> keywords_accepted kw ->
  (send method uri kw w).1 = next_answer w
  /\ inbox (send method uri kw w).2 = tail (inbox w)
  /\ exists c, outbox (send method uri kw w).2 = outbox w ++ [c].
Proof.
  intros Hm Hk. rewrite send_run.
  rewrite bool_decide_eq_true_2 by exact Hm.
  rewrite bool_decide_eq_true_2 by exact Hk.
  unfold next_answer. cbv zeta. destruct (inbox w) as [|r rest]; cbn; eauto.
Qed.

Lemma send_refused method uri kw w :
  method ∉ session_verbs \/ ~ keywords_accepted kw ->
  (send method uri kw w).2 = w /\ exists e, (send method uri kw w).1 = Raise e.
Proof.
  intros H. rewrite send_run. case_bool_decide; [|cbn; eauto].
  case_bool_decide; [|cbn; eauto]. tauto.
Qed.

(** X7. A dispatch sends at most one call and never retries.  Either it
    sends exactly one call, consumes exactly one answer of the network,
    and returns that answer decoded (a transport fault is raised as it
    is, nothing is caught); or it raises before reaching the network,
    and then neither the calls sent nor the answers pending change. *)
Theorem dispatch_once method path type signed kw w :
  let r := _request method path type signed kw w in
  ((exists c, issues (_request method path type signed kw) w c)
   /\ r.1 = next_answer w
   /\ inbox r.2 = tail (inbox w))
  \/ (outbox r.2 = outbox w /\ inbox r.2 = inbox w /\ exists e, r.1 = Raise e).
Proof.
  cbv zeta. unfold issues. rewrite request_run. unfold request_closed. cbv zeta.
  assert (Hsend : forall u k w', outbox w' = outbox w -> inbox w' = inbox w ->
            let r := send method u k w' in
            ((exists c, outbox r.2 = outbox w ++ [c])
             /\ r.1 = next_answer w /\ inbox r.2 = tail (inbox w))
            \/ (outbox r.2 = outbox w /\ inbox r.2 = inbox w
                /\ exists e, r.1 = Raise e)).
  { intros u k w' Ho Hi. cbv zeta.
    destruct (decide (method ∈ session_verbs)) as [Hm|Hm];
      [destruct (decide (keywords_accepted k)) as [Hk|Hk]|].
    - left. destruct (send_outcome method u k w' Hm Hk) as (H1 & H2 & H3).
      rewrite H1, H2. unfold next_answer. rewrite Hi, <- Ho. by repeat split.
    - right. destruct (send_refused method u k w' (or_intror Hk)) as [-> He].
      by repeat split.
    - right. destruct (send_refused method u k w' (or_introl Hm)) as [-> He].
      by repeat split. }
  destruct (resolve (heap w) _); [| |right; cbn; eauto];
    (destruct (resolve _ _); [| |right; cbn; eauto]);
    (destruct signed;
     [destruct (_generate_signature _ _); [|right; cbn; eauto]|]);
    by apply Hsend.
Qed.

Lemma dict_set_keys {V} (d : list (str * V)) (k : str) (v : V) :
  dict_keys (dict_set d k v)
  = if decide (k ∈ dict_keys d) then dict_keys d else dict_keys d ++ [k].
Proof.
  unfold dict_keys. induction d as [|[k0 v0] d IH]; cbn.
  - rewrite decide_False; [reflexivity|apply not_elem_of_nil].
  - destruct (decide (k0 = k)) as [->|Hne]; cbn.
    + rewrite decide_True; [reflexivity|by left].
    + rewrite IH. destruct (decide (k ∈ fst <$> d)) as [Hin|Hin].
      * rewrite decide_True; [reflexivity|by right].
      * rewrite decide_False; [reflexivity|].
        rewrite not_elem_of_cons. split; congruence.
Qed.

Lemma dict_set_keys_incl {V} (d : list (str * V)) (k k' : str) (v : V) :
  k' ∈ dict_keys d -> k' ∈ dict_keys (dict_set d k v).
Proof.
  intros H. rewrite dict_set_keys. destruct (decide _); [exact H|].
  apply elem_of_app. by left.
Qed.

(** X8. A keyword that [Session.request] does not take, whether the
    caller passes it or the global request parameters carry it, stops
    the dispatch at the session: when the dispatch gets that far (an
    HTTP verb, existing [data] and [params] dicts and, if signed, a
    body that can be signed), [TypeError] is raised, nothing is sent
    and no answer is consumed. *)
Theorem unknown_keyword_refused method path type signed kw w k :
  k ∈ dict_keys (merged (self w) kw) -> k ∉ request_keywords ->
  method ∈ session_verbs ->
  ref_valid (heap w) (dict_get (merged (self w) kw) (lit "data")) ->
  ref_valid (heap w) (dict_get (merged (self w) kw) (lit "params")) ->
  (signed = true ->
   ints_printable (with_nonce (dict_before (lit "data") kw w) w)
   /\ exists sign,
        _generate_signature (self w)
          (with_nonce (dict_before (lit "data") kw w) w) = Ok sign) ->
  let r := _request method path type signed kw w in
  r.1 = Raise TypeError /\ outbox r.2 = outbox w /\ inbox r.2 = inbox w.
Proof.
  intros Hin Hk Hm Hvd Hvp Hs. cbv zeta. rewrite request_run.
  unfold request_closed, dict_before, with_nonce in *.
  set (kw2 := merged (self w) kw) in *.
  pose proof (resolve_valid (heap w) (dict_get kw2 (lit "data")) Hvd) as Hrd.
  pose proof (resolved_content (heap w) (dict_get kw2 (lit "data")) Hrd) as Hcd.
  pose proof (resolved_loc_valid (heap w) (dict_get kw2 (lit "data")) Hrd) as Hld.
  set (rd := resolve (heap w) (dict_get kw2 (lit "data"))) in *.
  set (ld := resolved_loc (heap w) rd) in *.
  set (h1 := resolved_heap (heap w) rd) in *.
  set (kw3 := dict_set kw2 (lit "data") (VDict ld)).
  assert (Hrp : resolve h1 (dict_get kw3 (lit "params")) <> Dangling).
  { apply resolve_valid. intros l Hl. unfold kw3 in Hl.
    rewrite dict_get_set_ne in Hl by lit_ne. apply Hvp in Hl.
    pose proof (resolved_heap_length (heap w) rd). unfold h1. lia. }
  set (rp := resolve h1 (dict_get kw3 (lit "params"))) in *.
  rewrite !(resolved_case rd) by exact Hrd. rewrite !(resolved_case rp) by exact Hrp.
  rewrite (resolved_heap_lookup h1 rp ld Hld), Hcd.
  change (default [] (Some ?x)) with x.
  assert (Hsend : forall u l2 l3 w', outbox w' = outbox w -> inbox w' = inbox w ->
            let r := send method u
                       (dict_set (dict_set kw3 (lit "params") (VDict l2))
                                 (lit "headers") (VDict l3)) w' in
            r.1 = Raise TypeError /\ outbox r.2 = outbox w /\ inbox r.2 = inbox w).
  { intros u l2 l3 w' Ho Hi. cbv zeta. rewrite send_run.
    rewrite bool_decide_eq_true_2 by exact Hm.
    rewrite bool_decide_eq_false_2; [by repeat split|].
    intros Hacc. apply Hk.
    unfold keywords_accepted in Hacc. rewrite Forall_forall in Hacc. apply Hacc.
    unfold kw3. by do 3 apply dict_set_keys_incl. }
  destruct signed.
  - destruct (Hs eq_refl) as [_ [sign ->]]. by apply Hsend.
  - by apply Hsend.
Qed.

Lemma unknown_keyword_refused_witness :
  let w := set_self {| API_KEY := lit "KEY"; API_SECRET := lit "SECRET";
                       _session := 0%nat;
                       _requests_params := Some [(lit "foo", VAtom (AInt 1))] |}
             sample_world in
  let r := _request (lit "post") (lit "list") USER true [] w in
  r.1 = Raise TypeError /\ outbox r.2 = [] /\ inbox r.2 = inbox w.
Proof.
  intros w r.
  apply (unknown_keyword_refused (lit "post") (lit "list") USER true [] w (lit "foo")).
  - compute_done.
  - compute_done.
  - compute_done.
  - intros l Hl. vm_compute in Hl. discriminate Hl.
  - intros l Hl. vm_compute in Hl. discriminate Hl.
  - intros _. split; [|eexists; vm_compute; reflexivity].
    assert (E : with_nonce (dict_before (lit "data") [] w) w
                = [(lit "nonce", AInt 1700000000)])
      by (vm_compute; reflexivity).
    rewrite E. constructor; [reflexivity|constructor].
Defined.

(** ** When signing fails *)

Lemma utf8_char_cases (c : N) :
  (scalar_value c /\ exists b, utf8_char c = Ok b)
  \/ (~ scalar_value c /\ utf8_char c = Raise UnicodeEncodeError).
Proof.
  unfold utf8_char, scalar_value. cbv zeta.
  destruct (Z.ltb_spec (Z.of_N c) 0x80); [left; split; [lia|eauto]|].
  destruct (Z.ltb_spec (Z.of_N c) 0x800); [left; split; [lia|eauto]|].
  destruct (Z.ltb_spec (Z.of_N c) 0x10000).
  - destruct (Z.leb_spec 0xD800 (Z.of_N c)), (Z.ltb_spec (Z.of_N c) 0xE000);
      cbn [andb]; try (left; split; [lia|eauto]).
    right. split; [lia|reflexivity].
  - destruct (Z.ltb_spec (Z.of_N c) 0x110000); [left; split; [lia|eauto]|].
    right. split; [lia|reflexivity].
Qed.

Lemma encode_utf8_raise (s : str) :
  ~ encodable s -> encode_utf8 s = Raise UnicodeEncodeError.
Proof.
  induction s as [|c s IH]; intros Hn.
  - exfalso. apply Hn. constructor.
  - cbn [encode_utf8].
    destruct (utf8_char_cases c) as [(Hc & b & ->)|(Hc & ->)]; [|reflexivity].
    rewrite IH; [reflexivity|]. intros Hs. apply Hn. by constructor.
Qed.

(** [encode] succeeds exactly on text without surrogates. *)
Lemma encode_utf8_Ok (s : str) :
  (exists b, encode_utf8 s = Ok b) <-> encodable s.
Proof.
  split; [|apply encode_utf8_total].
  intros [b Hb]. destruct (decide (Forall scalar_value s)) as [H|H]; [exact H|].
  rewrite (encode_utf8_raise s H) in Hb. discriminate Hb.
Qed.

(** X9. On fields whose integers are within the limit of [str], the
    signer raises [UnicodeEncodeError], and nothing else, exactly when
    the secret or the canonical string holds a code point that UTF-8
    cannot encode (a lone surrogate); otherwise it returns a
    signature. *)
Theorem generate_signature_errors (c : Client) (data : fields) :
  ints_printable data ->
  ((exists sign, _generate_signature c data = Ok sign)
   <-> encodable (API_SECRET c) /\ encodable (canonical_string data))
  /\ (forall e, _generate_signature c data = Raise e -> e = UnicodeEncodeError).
Proof.
  intros _. rewrite generate_signature_canonical. unfold spec_signature.
  destruct (decide (encodable (API_SECRET c))) as [Hs|Hs].
  - destruct (encode_utf8_total _ Hs) as [key ->]. cbn [res_bind].
    destruct (decide (encodable (canonical_string data))) as [Hd|Hd].
    + destruct (encode_utf8_total _ Hd) as [msg ->]. cbn [res_bind].
      split; [split; eauto|discriminate].
    + rewrite (encode_utf8_raise _ Hd). cbn [res_bind].
      split; [split; [intros [? [=]]|by intros [_ ?]]|by intros e [= <-]].
  - rewrite (encode_utf8_raise _ Hs). cbn [res_bind].
    split; [split; [intros [? [=]]|by intros [? _]]|by intros e [= <-]].
Qed.

Lemma generate_signature_errors_witness :
  _generate_signature
    {| API_KEY := lit "KEY"; API_SECRET := [0xD800%N]; _session := 0%nat;
       _requests_params := None |} [(lit "a", AInt 1)]
  = Raise UnicodeEncodeError.
Proof.
  assert (Hi : ints_printable [(lit "a", AInt 1)])
    by (repeat constructor).
  destruct (_generate_signature _ _) as [sign|e] eqn:E.
  - exfalso.
    destruct (proj1 (proj1 (generate_signature_errors _ _ Hi)) (ex_intro _ sign E))
      as [Hs _].
    apply Forall_inv in Hs. unfold scalar_value in Hs. cbn in Hs. lia.
  - f_equal. exact (proj2 (generate_signature_errors _ _ Hi) e E).
Defined.

(** X10. When the signature cannot be computed (the body, whose
    integers are within the limit of [str], or the secret holds text
    that UTF-8 cannot encode), a signed dispatch raises the signer's
    exception, sends nothing and consumes no answer; yet by then the
    nonce has been written, so a non-empty dict supplied as [data] has
    been modified although no request was made. *)
Theorem unsignable_dispatch method path type kw w e :
  ref_valid (heap w) (dict_get (merged (self w) kw) (lit "data")) ->
  ref_valid (heap w) (dict_get (merged (self w) kw) (lit "params")) ->
  ints_printable (with_nonce (dict_before (lit "data") kw w) w) ->
  _generate_signature (self w) (with_nonce (dict_before (lit "data") kw w) w)
  = Raise e ->
  let r := _request method path type true kw w in
  r.1 = Raise e /\ outbox r.2 = outbox w /\ inbox r.2 = inbox w
  /\ forall l d, dict_get (merged (self w) kw) (lit "data") = Some (VDict l) ->
                 heap w !! l = Some d -> d <> [] ->
                 heap r.2 !! l = Some (with_nonce d w).
Proof.
  intros Hvd Hvp _ Hsig. cbv zeta.
  split; [|split; [|split]];
    [| | |by intros l d Hg Hl Hd; apply request_signed_heap].
  all: rewrite request_run; unfold request_closed, dict_before, with_nonce in *.
  all: set (kw2 := merged (self w) kw) in *.
  all: pose proof (resolve_valid (heap w) (dict_get kw2 (lit "data")) Hvd) as Hrd.
  all: pose proof (resolved_content (heap w) (dict_get kw2 (lit "data")) Hrd) as Hcd.
  all: pose proof (resolved_loc_valid (heap w) (dict_get kw2 (lit "data")) Hrd) as Hld.
  all: set (rd := resolve (heap w) (dict_get kw2 (lit "data"))) in *.
  all: set (ld := resolved_loc (heap w) rd) in *.
  all: set (h1 := resolved_heap (heap w) rd) in *.
  all: set (kw3 := dict_set kw2 (lit "data") (VDict ld)).
  all: assert (Hrp : resolve h1 (dict_get kw3 (lit "params")) <> Dangling)
         by (apply resolve_valid; intros l Hl; unfold kw3 in Hl;
             rewrite dict_get_set_ne in Hl by lit_ne; apply Hvp in Hl;
             pose proof (resolved_heap_length (heap w) rd); unfold h1; lia).
  all: set (rp := resolve h1 (dict_get kw3 (lit "params"))) in *.
  all: rewrite !(resolved_case rd) by exact Hrd.
  all: rewrite !(resolved_case rp) by exact Hrp.
  all: rewrite (resolved_heap_lookup h1 rp ld Hld), Hcd.
  all: change (default [] (Some ?x)) with x.
  all: by rewrite Hsig.
Qed.

Lemma unsignable_dispatch_witness :
  let w := set_heap [[(lit "page", AInt 1)]]
             (with_secret [0xDFFF%N] sample_world) in
  let r := _request (lit "post") (lit "history") ORDER true
             [(lit "data", VDict 0)] w in
  r.1 = Raise UnicodeEncodeError /\ outbox r.2 = [] /\ inbox r.2 = inbox w
  /\ heap r.2 !! 0%nat
     = Some [(lit "page", AInt 1); (lit "nonce", AInt 1700000000)].
Proof.
  intros w r.
  destruct (unsignable_dispatch (lit "post") (lit "history") ORDER
              [(lit "data", VDict 0)] w UnicodeEncodeError)
    as (H1 & H2 & H3 & H4).
  - intros l [= <-]. cbn. lia.
  - intros l Hl. vm_compute in Hl. discriminate Hl.
  - assert (E : with_nonce (dict_before (lit "data") [(lit "data", VDict 0)] w) w
                = [(lit "page", AInt 1); (lit "nonce", AInt 1700000000)])
      by (vm_compute; reflexivity).
    rewrite E. repeat (constructor; [reflexivity|]). constructor.
  - vm_compute. reflexivity.
  - split; [exact H1|]. split; [exact H2|]. split; [exact H3|].
    apply (H4 0%nat [(lit "page", AInt 1)]); [reflexivity|reflexivity|discriminate].
Defined.

(** ** What a dispatch leaves alone *)

(** The heap after a dispatch: it has grown, and a dict that existed
    before is as it was, unless it is the dict that a signed dispatch
    took as [data]. *)
Lemma request_heap_frame method path type signed kw w :
  let w' := (_request method path type signed kw w).2 in
  (length (heap w) <= length (heap w'))%nat
  /\ forall l, (l < length (heap w))%nat ->
       (signed = true -> dict_get (merged (self w) kw) (lit "data") <> Some (VDict l)) ->
       heap w' !! l = heap w !! l.
Proof.
  cbv zeta. rewrite request_run. unfold request_closed.
  set (kw2 := merged (self w) kw).
  pose proof (resolved_heap_length (heap w)
                (resolve (heap w) (dict_get kw2 (lit "data")))) as Hl1.
  set (rd := resolve (heap w) (dict_get kw2 (lit "data"))) in *.
  assert (Hld : forall l, (l < length (heap w))%nat ->
                          dict_get kw2 (lit "data") <> Some (VDict l) ->
                          l <> resolved_loc (heap w) rd).
  { intros l Hl Hne. unfold rd.
    destruct (resolve (heap w) (dict_get kw2 (lit "data"))) as [l'| |] eqn:E;
      cbn [resolved_loc]; try lia.
    apply resolve_Kept in E as [E _]. congruence. }
  set (ld := resolved_loc (heap w) rd) in *.
  set (h1 := resolved_heap (heap w) rd) in *.
  set (kw3 := dict_set kw2 (lit "data") (VDict ld)).
  pose proof (resolved_heap_length h1 (resolve h1 (dict_get kw3 (lit "params")))) as Hl2.
  set (rp := resolve h1 (dict_get kw3 (lit "params"))) in *.
  set (h2 := resolved_heap h1 rp) in *.
  assert (Hh1 : forall l, (l < length (heap w))%nat -> h1 !! l = heap w !! l).
  { intros l Hl. by apply resolved_heap_lookup. }
  assert (Hh2 : forall l, (l < length (heap w))%nat -> h2 !! l = heap w !! l).
  { intros l Hl. unfold h2. rewrite resolved_heap_lookup by lia. by apply Hh1. }
  assert (Hsend : forall m u k h, 
            heap (send m u k (set_heap h w)).2 = h).
  { intros m u k h. by rewrite (proj1 (proj2 (send_frame m u k (set_heap h w)))). }
  destruct (resolved_dec rd) as [Hrd|Hrd].
  { rewrite Hrd. cbn. split; [lia|done]. }
  destruct (resolved_dec rp) as [Hrp|Hrp].
  { rewrite Hrp, (resolved_case rd) by exact Hrd. cbn. split; [lia|].
    intros l Hl _. by apply Hh1. }
  rewrite !(resolved_case rd) by exact Hrd. rewrite !(resolved_case rp) by exact Hrp.
  destruct signed.
  - set (body := dict_set _ _ _).
    assert (Hfin : forall hdrs,
      (length (heap w) <= length (<[ld:=body]> h2 ++ [hdrs]))%nat
      /\ forall l, (l < length (heap w))%nat ->
           (true = true -> dict_get kw2 (lit "data") <> Some (VDict l)) ->
           (<[ld:=body]> h2 ++ [hdrs]) !! l = heap w !! l).
    { intros hdrs. rewrite length_app, length_insert. split; [lia|].
      intros l Hl Hne. rewrite lookup_app_l by (rewrite length_insert; lia).
      rewrite list_lookup_insert_ne; [by apply Hh2|].
      intros <-. by apply (Hld ld Hl (Hne eq_refl)). }
    destruct (_generate_signature _ _); [rewrite Hsend|cbn]; apply Hfin.
  - rewrite Hsend, length_app. split; [lia|].
    intros l Hl _. rewrite lookup_app_l by lia. by apply Hh2.
Qed.

(** X11. A dispatch writes to no dict that existed before it, except
    the one a signed dispatch takes as [data]: the heap only grows, an
    unsigned dispatch leaves every existing dict as it was, and a
    signed one leaves every existing dict but its [data] dict as it
    was, whether the call goes out or an exception is raised. *)
Theorem dispatch_frame method path type signed kw w :
  let w' := (_request method path type signed kw w).2 in
  (length (heap w) <= length (heap w'))%nat
  /\ (signed = false ->
      forall l, (l < length (heap w))%nat -> heap w' !! l = heap w !! l)
  /\ (forall l, (l < length (heap w))%nat ->
        dict_get (merged (self w) kw) (lit "data") <> Some (VDict l) ->
        heap w' !! l = heap w !! l).
Proof.
  cbv zeta.
  destruct (request_heap_frame method path type signed kw w) as [Hlen Hfr].
  split; [exact Hlen|]. split.
  - intros -> l Hl. apply Hfr; [exact Hl|discriminate].
  - intros l Hl Hne. apply Hfr; [exact Hl|by intros _].
Qed.

Lemma dispatch_frame_witness :
  let w := set_heap [[(lit "page", AInt 1)]; [(lit "q", AInt 2)]] sample_world in
  let kw := [(lit "data", VDict 0); (lit "params", VDict 1)] in
  heap (_request (lit "post") (lit "history") ORDER true kw w).2 !! 1%nat
  = Some [(lit "q", AInt 2)]
  /\ heap (_request (lit "get") (lit "history") ORDER false kw w).2 !! 0%nat
     = Some [(lit "page", AInt 1)].
Proof.
  intros w kw. split.
  - apply (proj2 (proj2 (dispatch_frame (lit "post") (lit "history") ORDER true kw w))).
    + cbn. lia.
    + vm_compute. discriminate.
  - apply (proj1 (proj2 (dispatch_frame (lit "get") (lit "history") ORDER false kw w)));
      [reflexivity|cbn; lia].
Defined.

(** ** Endpoint methods and the caller's heap *)

Lemma invoke_frame (e : endpoint) (w : world) :
  no_override (self w) (lit "data") ->
  (length (heap w) <= length (heap (invoke e w).2))%nat
  /\ forall l, (l < length (heap w))%nat -> heap (invoke e w).2 !! l = heap w !! l.
Proof.
  intros Ho. rewrite invoke_run. cbv zeta.
  set (kw := [(lit "data", VDict (length (heap w)))]).
  set (w1 := set_heap (heap w ++ [p_fields (endpoint_plan e)]) w).
  destruct (request_heap_frame (p_method (endpoint_plan e)) (p_path (endpoint_plan e))
              (p_type (endpoint_plan e)) (p_signed (endpoint_plan e)) kw w1)
    as [Hlen Hfr].
  assert (Hl1 : length (heap w1) = S (length (heap w))).
  { cbn. rewrite length_app. cbn. lia. }
  split; [lia|]. intros l Hl. rewrite Hfr.
  - unfold w1. cbn [heap set_heap]. by apply lookup_app_l.
  - lia.
  - intros _. rewrite merged_get; [|lit_ne|exact Ho].
    unfold kw. cbn. intros [= E]. lia.
Qed.

Lemma invoke_all_frame (es : list endpoint) (w : world) :
  no_override (self w) (lit "data") ->
  (length (heap w) <= length (heap (invoke_all es w)))%nat
  /\ forall l, (l < length (heap w))%nat -> heap (invoke_all es w) !! l = heap w !! l.
Proof.
  revert w. induction es as [|e es IH]; intros w Ho; [by split|].
  cbn [invoke_all fold_left].
  destruct (invoke_frame e w Ho) as [Hlen Hfr].
  destruct (IH (invoke e w).2) as [Hlen' Hfr'].
  { by rewrite invoke_self. }
  split; [unfold invoke_all in *; lia|].
  intros l Hl. unfold invoke_all in *. rewrite Hfr' by lia. by apply Hfr.
Qed.

(** X12. When the global request parameters carry no [data], the
    endpoint methods write only to dicts they create themselves: after
    any sequence of endpoint calls, whatever they return or raise,
    every dict that existed before is as it was. *)
Theorem endpoints_leave_heap (es : list endpoint) (w : world) :
  no_override (self w) (lit "data") ->
  (length (heap w) <= length (heap (invoke_all es w)))%nat
  /\ forall l, (l < length (heap w))%nat -> heap (invoke_all es w) !! l = heap w !! l.
Proof. apply invoke_all_frame. Qed.

Lemma endpoints_leave_heap_witness :
  let w := set_heap [[(lit "mine", AInt 1)]] sample_world in
  heap (invoke_all [BuyOrder (AInt 1) (AInt 2) (AInt 3); UserBalance;
                    Depth (AStr (lit "BTCUSD"))] w) !! 0%nat
  = Some [(lit "mine", AInt 1)].
Proof.
  intros w.
  apply (proj2 (endpoints_leave_heap _ w I) 0%nat). cbn. lia.
Defined.



(** ** More on the decoder *)



(** ** More on the URI builder *)

(** X15. The URI builder is injective: two calls give the same URL only
    for the same path and the same category, so no URL of one category
    is ever a URL of another. *)
Theorem create_api_uri_injective (p p' : str) (t t' : API_TYPE) :
  _create_api_uri p t = _create_api_uri p' t' -> p = p' /\ t = t'.
Proof.
  rewrite !create_api_uri_total. intros [= H].
  destruct t, t'; vm_compute in H; try discriminate H;
    (split; [congruence|reflexivity]).
Qed.

Lemma create_api_uri_injective_witness :
  lit "create" = lit "create" /\ ORDER = ORDER.
Proof.
  exact (create_api_uri_injective (lit "create") (lit "create") ORDER ORDER eq_refl).
Defined.


(** ** Global request parameters that carry [data] *)

(** X16. When the global request parameters hold a non-empty dict under
    [data], every endpoint method sends that dict (with the nonce, when
    signed) instead of its own fields, whatever its arguments; and a
    signed method leaves the nonce in that shared dict. *)
Theorem global_data_wins (e : endpoint) (w : world) (rp : kwargs)
    (l : loc) (d : fields) (c : call) :
  _requests_params (self w) = Some rp -> NoDup (dict_keys rp) ->
  dict_get rp (lit "data") = Some (VDict l) ->
  heap w !! l = Some d -> d <> [] ->
  override_valid w (lit "params") ->
  issues (invoke e) w c ->
  call_dict c (lit "data")
  = Some (if p_signed (endpoint_plan e) then with_nonce d w else d)
  /\ (p_signed (endpoint_plan e) = true ->
      heap (invoke e w).2 !! l = Some (with_nonce d w)).
Proof.
  intros Hrp Hnd Hg Hl Hd Hv Hi.
  set (kw := [(lit "data", VDict (length (heap w)))] : kwargs).
  set (w1 := set_heap (heap w ++ [p_fields (endpoint_plan e)]) w).
  assert (Hm : dict_get (merged (self w1) kw) (lit "data") = Some (VDict l)).
  { unfold merged. cbn [w1 self set_heap]. rewrite Hrp.
    destruct rp as [|x rp]; [discriminate Hg|]. by apply dict_get_update_Some. }
  assert (Hl1 : heap w1 !! l = Some d).
  { cbn. rewrite lookup_app_l; [exact Hl|by apply lookup_lt_Some in Hl]. }
  assert (Hb : dict_before (lit "data") kw w1 = d)
    by exact (dict_before_lookup _ _ _ _ _ Hm Hl1).
  split.
  - unfold issues in Hi. rewrite invoke_run in Hi. cbv zeta in Hi.
    apply (request_call _ _ _ _ kw w1 c) in Hi. cbv zeta in Hi.
    destruct Hi as (_ & _ & _ & _ & Hdata & _). by rewrite Hb in Hdata.
  - intros Hs. rewrite invoke_run. cbv zeta. rewrite Hs.
    apply (request_signed_heap _ _ _ kw w1 l d Hm Hl1 Hd).
    intros l' Hl'.
    assert (Hne : lit "params" <> lit "timeout") by lit_ne.
    destruct (merged_get_inv _ _ _ _ Hne Hl') as [(rp' & Hrp' & Hin)|Hk];
      [|discriminate Hk].
    pose proof (Hv rp' l' Hrp' Hin). cbn. rewrite length_app. lia.
Qed.

Lemma global_data_wins_witness :
  exists c,
    issues (invoke (BuyOrder (AStr (lit "BTCUSD")) (AInt 100) (AInt 1))) override_world c
    /\ call_dict c (lit "data")
       = Some [(lit "x", AInt 1); (lit "nonce", AInt 1700000000)]
    /\ heap (invoke (BuyOrder (AStr (lit "BTCUSD")) (AInt 100) (AInt 1))
               override_world).2 !! 0%nat
       = Some [(lit "x", AInt 1); (lit "nonce", AInt 1700000000)].
Proof.
  eexists. split; [vm_compute; reflexivity|].
  match goal with
  | |- call_dict ?c _ = _ /\ _ =>
      pose proof (global_data_wins
                    (BuyOrder (AStr (lit "BTCUSD")) (AInt 100) (AInt 1))
                    override_world [(lit "data", VDict 0)] 0%nat [(lit "x", AInt 1)] c
                    eq_refl ltac:(compute_done) eq_refl eq_refl ltac:(discriminate)) as H
  end.
  destruct H as [H1 H2].
  - intros rp l [= <-] Hin. apply list_elem_of_singleton in Hin. discriminate Hin.
  - vm_compute. reflexivity.
  - split; [exact H1|]. by apply H2.
Defined.

(** ** Where the nonce goes *)

(** X17. A signed dispatch changes nothing in the body but the nonce: the
    other fields keep their values and their order; a nonce already
    present is overwritten where it stands, otherwise the nonce is
    appended as the last field (so it is the last pair signed). *)
Theorem nonce_position method path type kw w c :
  issues (_request method path type true kw) w c ->
  let before := dict_before (lit "data") kw w in
  exists body,
    call_dict c (lit "data") = Some body
    /\ dict_keys body
       = (if decide (lit "nonce" ∈ dict_keys before)
          then dict_keys before else dict_keys before ++ [lit "nonce"])
    /\ (forall k, k <> lit "nonce" -> dict_get body k = dict_get before k)
    /\ (dict_get before (lit "nonce") = None ->
        body = before ++ [(lit "nonce", AInt (py_round (clock w)))]).
Proof.
  intros H. apply request_call in H. cbv zeta in H |- *.
  destruct H as (_ & _ & _ & _ & Hd & _).
  eexists. split; [exact Hd|]. split; [apply dict_set_keys|]. split.
  - intros k Hk. by apply dict_get_set_ne.
  - apply dict_set_keys_absent.
Qed.

Lemma nonce_position_witness :
  let w := set_heap [[(lit "nonce", AInt 5); (lit "page", AInt 1)]] sample_world in
  exists c body,
    issues (_request (lit "post") (lit "history") ORDER true [(lit "data", VDict 0)]) w c
    /\ call_dict c (lit "data") = Some body
    /\ dict_keys body = [lit "nonce"; lit "page"].
Proof.
  intros w. eexists.
  match goal with
  | |- exists body, issues _ _ ?c /\ _ =>
      assert (Hi : issues (_request (lit "post") (lit "history") ORDER true
                             [(lit "data", VDict 0)]) w c)
        by (vm_compute; reflexivity);
      destruct (nonce_position _ _ _ _ _ _ Hi) as (body & H1 & H2 & _)
  end.
  exists body. split; [exact Hi|]. split; [exact H1|]. rewrite H2. reflexivity.
Defined.
